(** * Scriptlets: json-prune, trusted-click-elem, remove-attr and
      prevent-requestAnimationFrame

    A shallow embedding of four scriptlets of the repository and the
    properties of their scheduling and matching logic.

    JavaScript strings are [string]s of 8-bit characters, JavaScript numbers
    that index or count are [Z], a call that may throw returns an [outcome].
    Helpers the scriptlets import from [../helpers] but whose text is not part
    of the sources at hand are Section variables of the scriptlet that calls
    them, or definitions that follow the specification and say so. *)

From Stdlib Require Import String Ascii List Bool ZArith Lia.
From Stdlib Require Import Numbers.DecimalString.
Import ListNotations.
Set Warnings "-register-all".
Local Open Scope string_scope.
Local Open Scope list_scope.

(* ================================================================== *)
(** * The JavaScript fragment the scriptlets rely on *)
(* ================================================================== *)

Module Js.

(** Exceptions the modelled code can raise. *)
Inductive error : Set :=
| TypeError
| SyntaxError.

(** Completion of a call: a normal return or a thrown exception. *)
Inductive outcome (A : Type) : Type :=
| Returns (a : A)
| Throws (e : error).

Arguments Returns {A} a.
Arguments Throws {A} e.

Definition bind {A B : Type} (m : outcome A) (k : A -> outcome B) : outcome B :=
  match m with
  | Returns a => k a
  | Throws e => Throws e
  end.

(** [String.prototype.indexOf]: position of the first occurrence of
    [needle] in [s], or [-1]. *)
Fixpoint indexOf (s needle : string) : Z :=
  if prefix needle s then 0%Z
  else match s with
       | EmptyString => (-1)%Z
       | String _ rest =>
           let i := indexOf rest needle in
           if (i <? 0)%Z then (-1)%Z else (1 + i)%Z
       end.

(** [String.prototype.split] with a one-character separator. *)
Fixpoint split (sep : ascii) (s : string) : list string :=
  match s with
  | EmptyString => [EmptyString]
  | String c rest =>
      if Ascii.eqb c sep then EmptyString :: split sep rest
      else match split sep rest with
           | piece :: pieces => String c piece :: pieces
           | [] => [String c EmptyString]
           end
  end.

(** [Array.prototype.pop] read as an expression: the last element, or
    [undefined] (here [None]) on an empty array. *)
Definition pop {A : Type} (xs : list A) : option A :=
  match rev xs with
  | [] => None
  | x :: _ => Some x
  end.

(** White space of the 8-bit range removed by [String.prototype.trim] and
    matched by [\s]: tab, line feed, vertical tab, form feed, carriage
    return, space and no-break space (code 160). *)
Definition isWhiteSpace (c : ascii) : bool :=
  let n := nat_of_ascii c in
  ((9 <=? n) && (n <=? 13))%nat || (n =? 32)%nat || (n =? 160)%nat.

Fixpoint trimStart (s : string) : string :=
  match s with
  | EmptyString => EmptyString
  | String c rest => if isWhiteSpace c then trimStart rest else s
  end.

Fixpoint trimEnd (s : string) : string :=
  match s with
  | EmptyString => EmptyString
  | String c rest =>
      match trimEnd rest with
      | EmptyString => if isWhiteSpace c then EmptyString else String c EmptyString
      | kept => String c kept
      end
  end.

Definition trim (s : string) : string := trimEnd (trimStart s).

(** The one-character string holding a double quote. *)
Definition quote : string := String (ascii_of_nat 34) EmptyString.

(** [s.slice(1)]. *)
Definition slice1 (s : string) : string :=
  match s with
  | EmptyString => EmptyString
  | String _ rest => rest
  end.

(** [Array.prototype.join]. *)
Fixpoint join (sep : string) (xs : list string) : string :=
  match xs with
  | [] => EmptyString
  | [x] => x
  | x :: rest => (x ++ sep ++ join sep rest)%string
  end.

(** Truthiness of a string or of an optional (possibly [undefined]) string
    argument. *)
Definition truthy_string (s : string) : bool :=
  negb (String.eqb s EmptyString).

Definition truthy_arg (a : option string) : bool :=
  match a with
  | Some s => truthy_string s
  | None => false
  end.

End Js.

Notation "x <- m ;; k" := (Js.bind m (fun x => k))
  (at level 61, m at next level, right associativity).

(* ================================================================== *)
(** * json-prune ([src/scriptlets/json-prune.js]) *)
(* ================================================================== *)

Module JsonPrune.

(** Values [JSON.parse] returns, and [undefined].  Numbers are restricted
    to the integers: the scriptlet only inspects whether a number is zero.
    An object lists its own properties in enumeration order with distinct
    keys.  [JSON.parse] never puts [undefined] into an array, so a
    [VUndefined] slot of a [VArr] stands for the hole that [delete] leaves
    behind. *)
Inductive value : Type :=
| VUndefined
| VNull
| VBool (b : bool)
| VNum (n : Z)
| VStr (s : string)
| VArr (items : list value)
| VObj (props : list (string * value)).

(** [!!v]. *)
Definition truthy (v : value) : bool :=
  match v with
  | VUndefined | VNull => false
  | VBool b => b
  | VNum n => negb (n =? 0)%Z
  | VStr s => Js.truthy_string s
  | VArr _ | VObj _ => true
  end.

(** [v === undefined]. *)
Definition is_undefined (v : value) : bool :=
  match v with
  | VUndefined => true
  | _ => false
  end.

(** [v === false]. *)
Definition is_false (v : value) : bool :=
  match v with
  | VBool false => true
  | _ => false
  end.

(** The property key of array index [i]. *)
Definition index_key (i : nat) : string :=
  NilEmpty.string_of_uint (Nat.to_uint i).

Definition indexed {A : Type} (xs : list A) : list (string * A) :=
  combine (map index_key (seq 0 (length xs))) xs.

Fixpoint lookup {A : Type} (k : string) (kvs : list (string * A)) : option A :=
  match kvs with
  | [] => None
  | (k', v) :: rest => if String.eqb k k' then Some v else lookup k rest
  end.

(** [Object.keys(v)] paired with the values: the own enumerable entries of
    an object or of an array (holes are skipped). *)
Definition entries (v : value) : list (string * value) :=
  match v with
  | VObj props => props
  | VArr items =>
      filter (fun kv => negb (is_undefined (snd kv))) (indexed items)
  | _ => []
  end.

(** The own property [k] of [v], when there is one.  Properties inherited
    from a prototype ([constructor], [toString], ...) are outside the model. *)
Definition get_own (v : value) (k : string) : option value :=
  match v with
  | VObj props => lookup k props
  | VArr items =>
      if String.eqb k "length" then Some (VNum (Z.of_nat (length items)))
      else lookup k (indexed items)
  | VStr s =>
      if String.eqb k "length" then Some (VNum (Z.of_nat (String.length s)))
      else lookup k (indexed (map (fun c => VStr (String c EmptyString))
                                  (list_ascii_of_string s)))
  | _ => None
  end.

(** [v[k]]: reading a property of [null] or [undefined] throws. *)
Definition get_prop (v : value) (k : string) : Js.outcome value :=
  match v with
  | VUndefined | VNull => Js.Throws Js.TypeError
  | _ => Js.Returns (match get_own v k with
                     | Some x => x
                     | None => VUndefined
                     end)
  end.

(** [delete v[k]] on an object or an array; other values have no own
    configurable property and are left as they are. *)
Definition delete_own (k : string) (v : value) : value :=
  match v with
  | VObj props => VObj (filter (fun kv => negb (String.eqb k (fst kv))) props)
  | VArr items =>
      VArr (map (fun kv => if String.eqb k (fst kv) then VUndefined else snd kv)
                (indexed items))
  | _ => v
  end.

(** Replace the entry [k] of container [v] by its image under [f]. *)
Definition map_child (k : string) (f : value -> value) (v : value) : value :=
  match v with
  | VObj props =>
      VObj (map (fun kv => if String.eqb k (fst kv) then (fst kv, f (snd kv))
                           else kv) props)
  | VArr items =>
      VArr (map (fun kv => if String.eqb k (fst kv) then f (snd kv) else snd kv)
                (indexed items))
  | _ => v
  end.

(** One element of the array [getPropertyInChain] returns: the owner object
    [base] and the property name [prop].  [base] is a reference into the
    parsed value; [base_at] is the key path from the root to that object,
    which is what identifies the reference in a model without a heap. *)
Record Chain : Type := mkChain {
  base_at : list string;
  base : value;
  prop : string
}.

(** [delete owner[prop]] for the owner found at key path [at_] under [r]. *)
Fixpoint delete_at (at_ : list string) (k : string) (r : value) : value :=
  match at_ with
  | [] => delete_own k r
  | step :: more => map_child step (delete_at more k) r
  end.

(** Modelled from the spec: the helper [getPropertyInChain] of [../helpers]
    (the Path Resolver), whose source is missing.  The path is split on
    [.]; a concrete segment selects the value at that key and a candidate
    lacking the key is dropped; a [*] segment expands a container into all
    its enumerable entries when look-through is enabled and is a literal key
    otherwise; scalars and [null] are not descended into; the result lists
    one location per leaf reached, depth-first and left to right; a nullish
    root gives the empty list. *)
Fixpoint resolve_from (lookThrough : bool) (segments : list string)
    (at_ : list string) (v : value) : list Chain :=
  match segments with
  | [] => []
  | seg :: more =>
      let wild := String.eqb seg "*" && lookThrough in
      match more with
      | [] =>
          if wild then map (fun kv => mkChain at_ v (fst kv)) (entries v)
          else match lookup seg (entries v) with
               | Some _ => [mkChain at_ v seg]
               | None => []
               end
      | _ :: _ =>
          if wild then
            flat_map (fun kv => resolve_from lookThrough more
                                  (at_ ++ [fst kv]) (snd kv)) (entries v)
          else match lookup seg (entries v) with
               | Some child => resolve_from lookThrough more (at_ ++ [seg]) child
               | None => []
               end
      end
  end.

(** Modelled from the spec: the contract [resolve(root, path,
    lookThroughWildcards)] of the Path Resolver, on top of [resolve_from]. *)
Definition resolve (root : value) (path : string) (lookThrough : bool)
  : list Chain :=
  match root with
  | VUndefined | VNull => []
  | _ => resolve_from lookThrough (Js.split "." path) [] root
  end.

(** [resolve] behind the signature of the call sites,
    [getPropertyInChain(base, chain, addProp, lookThrough)]. *)
Definition resolver (root : value) (chain : string) (addProp lookThrough : bool)
  : list Chain :=
  resolve root chain lookThrough.

(** What the wrapper does besides returning: a call of [hit] or of [log]. *)
Inductive effect : Type :=
| Hit
| Log (hostname : string) (payload : value).

(** [const hasWildcard = requiredPath.indexOf('.*.') > -1
      || requiredPath.indexOf('*.') > -1 || requiredPath.indexOf('.*') > -1] *)
Definition hasWildcard (requiredPath : string) : bool :=
  (Js.indexOf requiredPath ".*." >? -1)%Z
  || (Js.indexOf requiredPath "*." >? -1)%Z
  || (Js.indexOf requiredPath ".*" >? -1)%Z.

(** [requiredPath.split('.').pop()]; a missing element would be used as
    the key [undefined]. *)
Definition nestedPropName (requiredPath : string) : string :=
  match Js.pop (Js.split "." requiredPath) with
  | Some name => name
  | None => "undefined"
  end.

Section Scriptlet.

(** The imported path resolver, [getPropertyInChain(base, chain, addProp,
    lookThrough)]. *)
Variable getPropertyInChain : value -> string -> bool -> bool -> list Chain.

(** [window.location.hostname]. *)
Variable hostname : string.

(** The two lists [jsonPrune] builds from its arguments. *)
Variable prunePaths : list string.
Variable requiredPaths : list string.

(** The inner [for] loop over [details]. *)
Fixpoint checkDetails (wild : bool) (name : string) (details : list Chain)
    (shouldProcess : bool) : Js.outcome bool :=
  match details with
  | [] => Js.Returns shouldProcess
  | d :: rest =>
      v <- get_prop (base d) name ;;
      checkDetails wild name rest
        (if wild then negb (is_undefined v) || shouldProcess
         else negb (is_undefined v) && shouldProcess)
  end.

(** One turn of the outer [for] loop: the value assigned to
    [shouldProcess] for [requiredPath]. *)
Definition checkPath (root : value) (requiredPath : string) : Js.outcome bool :=
  let name := nestedPropName requiredPath in
  let wild := hasWildcard requiredPath in
  let details := getPropertyInChain root requiredPath false wild in
  checkDetails wild name details (negb wild).

(** The outer [for] loop; [shouldProcess] is declared without a value, so
    it is [undefined] until the first turn assigns it. *)
Fixpoint requiredLoop (root : value) (paths : list string)
    (shouldProcess : value) : Js.outcome value :=
  match paths with
  | [] => Js.Returns shouldProcess
  | requiredPath :: rest =>
      b <- checkPath root requiredPath ;;
      requiredLoop root rest (VBool b)
  end.

Definition isPruningNeeded (root : value) : Js.outcome value :=
  if negb (truthy root) then Js.Returns (VBool false)
  else requiredLoop root requiredPaths VUndefined.

(** [if (ownerObj !== undefined && ownerObj.base) delete
    ownerObj.base[ownerObj.prop]] *)
Definition pruneOwner (r : value) (ownerObj : Chain) : value :=
  if truthy (base ownerObj)
  then delete_at (base_at ownerObj) (prop ownerObj) r
  else r.

(** [prunePaths.forEach(...)]: each path is resolved against the value as
    the earlier paths left it. *)
Definition prune (r : value) : value :=
  fold_left (fun r path =>
               fold_left pruneOwner (getPropertyInChain r path false true) r)
            prunePaths r.

(** [parseWrapper], given the value [r] the native [JSON.parse] returned:
    the value handed to the caller and the calls of [log] and [hit] made. *)
Definition parseWrapper (r : value) : Js.outcome (value * list effect) :=
  match prunePaths with
  | [] => Js.Returns (r, [Log hostname r])
  | _ :: _ =>
      needed <- isPruningNeeded r ;;
      if is_false needed then Js.Returns (r, [])
      else Js.Returns (prune r, [Hit])
  end.

End Scriptlet.

(** [s.split(/ +/)]: the pieces between the runs of spaces; [inRun] says
    that the character before was a space of the run being skipped. *)
Fixpoint splitSpaces_from (inRun : bool) (s : string) : list string :=
  match s with
  | EmptyString => [EmptyString]
  | String c rest =>
      if Ascii.eqb c " " then
        if inRun then splitSpaces_from true rest
        else EmptyString :: splitSpaces_from true rest
      else match splitSpaces_from false rest with
           | piece :: pieces => String c piece :: pieces
           | [] => [String c EmptyString]
           end
  end.

Definition splitSpaces (s : string) : list string := splitSpaces_from false s.

(** [arg !== undefined && arg !== '' ? arg.split(/ +/) : []], the way
    [jsonPrune] reads [propsToRemove] and [requiredInitialProps]. *)
Definition pathsOf (arg : option string) : list string :=
  match arg with
  | Some s => if String.eqb s EmptyString then [] else splitSpaces s
  | None => []
  end.

(** [jsonPrune(source, propsToRemove, requiredInitialProps)]: the function
    it installs as [JSON.parse], applied to what the native parser returned. *)
Definition jsonPrune
    (getPropertyInChain : value -> string -> bool -> bool -> list Chain)
    (hostname : string) (propsToRemove requiredInitialProps : option string)
    (r : value) : Js.outcome (value * list effect) :=
  parseWrapper getPropertyInChain hostname (pathsOf propsToRemove)
               (pathsOf requiredInitialProps) r.

End JsonPrune.

(* ================================================================== *)
(** * trusted-click-elem *)
(* ================================================================== *)

Module TrustedClickElem.

(** What the scriptlet can read of its page: [window.location.href] and
    [document.cookie]. *)
Record window : Type := mkWindow {
  href : string;
  cookie : string
}.

Definition element : Type := nat.

(** [document.querySelector(selector)]: an element, [null], or a
    [SyntaxError] for a selector that does not parse. *)
Inductive query : Type :=
| Found (target : element)
| NotFound
| BadSelector.

(** The document as a batch of mutations leaves it, seen through
    [querySelector]. *)
Definition document : Type := string -> query.

(** The [this] of a call of [MutationObserver.prototype.disconnect]. *)
Inductive receiver : Type :=
| ThisObserver
| ThisWindow.

(** The closure state of one invocation: the queue, the current selector
    ([None] is [undefined]), whether the observer is connected, the pending
    timer with its delay, and the log of clicks and of [hit] calls. *)
Record machine : Type := mkMachine {
  selectorsQueue : list string;
  currentSelector : option string;
  observing : bool;
  timer : option Z;
  clicked : list (string * element);
  hits : nat
}.

Inductive event : Type :=
| Mutation (doc : document)
| Timeout.

Definition OBSERVER_TIMEOUT : Z := 5000.
Definition SELECTORS_DELIMITER : ascii := ",".

(** The machine of an invocation that returned at the precondition gate. *)
Definition idle : machine :=
  mkMachine [] None false None [] 0.

(** [Array.prototype.shift]. *)
Definition shift (queue : list string) : option string * list string :=
  match queue with
  | [] => (None, [])
  | first :: rest => (Some first, rest)
  end.

(** The string [querySelector] receives: [undefined] is converted to text. *)
Definition selector_text (current : option string) : string :=
  match current with
  | Some s => s
  | None => "undefined"
  end.

(** [disconnect] is a method of the observer: called on the observer it
    stops the notifications; called with any other [this] it throws a
    [TypeError] and stops nothing. *)
Definition disconnect (this : receiver) (m : machine) : Js.outcome machine :=
  match this with
  | ThisObserver =>
      Js.Returns (mkMachine (selectorsQueue m) (currentSelector m) false
                            (timer m) (clicked m) (hits m))
  | ThisWindow => Js.Throws Js.TypeError
  end.

(** [hit(source)]. *)
Definition hit (m : machine) : machine :=
  mkMachine (selectorsQueue m) (currentSelector m) (observing m)
            (timer m) (clicked m) (S (hits m)).

(** [clickHandler(mutations, observer)]. *)
Definition clickHandler (m : machine) (doc : document) : Js.outcome machine :=
  let selector := selector_text (currentSelector m) in
  match doc selector with
  | BadSelector => Js.Throws Js.SyntaxError
  | NotFound => Js.Returns m
  | Found target =>
      let (next, rest) := shift (selectorsQueue m) in
      let m' := mkMachine rest next (observing m) (timer m)
                          (clicked m ++ [(selector, target)]) (hits m) in
      if negb (Js.truthy_arg next) then
        m'' <- disconnect ThisObserver m' ;;
        Js.Returns (hit m'')
      else Js.Returns m'
  end.

(** An exception that leaves a callback is reported by the host and the
    page goes on; both callbacks here throw before they change anything. *)
Definition settle (before : machine) (r : Js.outcome machine) : machine :=
  match r with
  | Js.Returns after => after
  | Js.Throws _ => before
  end.

(** The host delivers a mutation batch to a connected observer, and fires
    the timer once.  The timer's handler is the value of the expression
    [observer.disconnect], the method without its object, and the host calls
    a timer handler with [this] set to the window. *)
Definition step (m : machine) (e : event) : machine :=
  match e with
  | Mutation doc =>
      if observing m then settle m (clickHandler m doc) else m
  | Timeout =>
      match timer m with
      | Some _ =>
          let fired := mkMachine (selectorsQueue m) (currentSelector m)
                                 (observing m) None (clicked m) (hits m) in
          settle fired (disconnect ThisWindow fired)
      | None => m
      end
  end.

Definition run (m : machine) (events : list event) : machine :=
  fold_left step events m.

Section Host.

(** The imported helper [toRegExp] and [RegExp.prototype.test]. *)
Variable RegExp : Type.
Variable toRegExp : string -> RegExp.
Variable test : RegExp -> string -> bool.

Definition hrefMatched (w : window) (hrefMatch : option string) : bool :=
  match hrefMatch with
  | Some h =>
      if Js.truthy_string h then negb (Js.indexOf (href w) h =? -1)%Z else true
  | None => true
  end.

Definition cookieMatched (w : window) (cookieMatch : option string) : bool :=
  match cookieMatch with
  | Some c =>
      if Js.truthy_string c then
        let cookieRegex := toRegExp c in
        test cookieRegex (href w)
      else true
  | None => true
  end.

(** The targets in order: [selectors.split(',').map(s => s.trim())]. *)
Definition targets (selectors : string) : list string :=
  map Js.trim (Js.split SELECTORS_DELIMITER selectors).

(** The invocation itself: the machine it leaves behind for the host's
    events. *)
Definition trustedClickElem (w : window) (selectors : string)
    (hrefMatch cookieMatch : option string) : machine :=
  if negb (hrefMatched w hrefMatch) || negb (cookieMatched w cookieMatch)
  then idle
  else
    let (current, queue) := shift (targets selectors) in
    mkMachine queue current true (Some OBSERVER_TIMEOUT) [] 0.

End Host.

End TrustedClickElem.

(* ================================================================== *)
(** * remove-attr ([src/scriptlets/remove-attr.js]) *)
(* ================================================================== *)

Module RemoveAttr.

(** [document.readyState]. *)
Inductive readyState : Type :=
| Loading
| Interactive
| Complete.

Definition is_loading (s : readyState) : bool :=
  match s with Loading => true | _ => false end.

Definition is_complete (s : readyState) : bool :=
  match s with Complete => true | _ => false end.

(** The flag names [flags.ASAP], [flags.COMPLETE], [flags.STAY]. *)
Inductive flag : Type :=
| ASAP
| COMPLETE
| STAY.

(** The two closures the scriptlet hands to the host. *)
Inductive callback : Type :=
| Rmattr
| Run.

(** An element with its attributes (name and value); a document lists its
    elements in document order. *)
Definition node : Type := list (string * string).
Definition document : Type := list node.

(** The page around one invocation: the DOM and its readiness, the
    listeners and observers the invocation registered, and the counts of
    [rmattr] runs and of [hit] calls with the console output. *)
Record page : Type := mkPage {
  dom : document;
  ready : readyState;
  onDOMContentLoaded : list callback;
  onLoad : list callback;
  observers : list (callback * bool);
  rmattrRuns : nat;
  hits : nat;
  console : list string
}.

Definition fresh (d : document) (s : readyState) : page :=
  mkPage d s [] [] [] 0 0 [].

Inductive event : Type :=
| DOMContentLoaded
| Load
| Mutation (d : document) (attributesOnly : bool).

(** A name in ASCII lower case. *)
Definition lower (c : ascii) : ascii :=
  let n := nat_of_ascii c in
  if ((65 <=? n) && (n <=? 90))%nat then ascii_of_nat (n + 32) else c.

Fixpoint lowercase (s : string) : string :=
  match s with
  | EmptyString => EmptyString
  | String c rest => String (lower c) (lowercase rest)
  end.

(** [node.removeAttribute(attr)] on an element of an HTML document: the
    name given is put in ASCII lower case and the attribute of that name is
    removed. *)
Definition removeAttribute (attr : string) (n : node) : node :=
  filter (fun a => negb (String.eqb (fst a) (lowercase attr))) n.

Fixpoint update (i : nat) (f : node -> node) (d : document) : document :=
  match d, i with
  | [], _ => []
  | n :: rest, O => f n :: rest
  | n :: rest, S j => n :: update j f rest
  end.

(** [attrs.split(/\s*\|\s*/)]: the pieces between the bars, without the
    white space that touches a bar. *)
Fixpoint trim_pieces (first : bool) (pieces : list string) : list string :=
  match pieces with
  | [] => []
  | [p] => [if first then p else Js.trimStart p]
  | p :: rest =>
      (if first then Js.trimEnd p else Js.trim p) :: trim_pieces false rest
  end.

Definition split_attrs (attrs : string) : list string :=
  trim_pieces true (Js.split "|" attrs).

(** [!applying.indexOf(' ') !== -1] compares a boolean with a number, and
    values of different types are never strictly equal. *)
Definition bool_strict_ne_number (b : bool) (n : Z) : bool := true.

(** [!n] for a number. *)
Definition not_number (n : Z) : bool := (n =? 0)%Z.

Section Host.

(** [document.querySelectorAll(selector)]: the matched elements by their
    position in the document, or a [SyntaxError]. *)
Variable querySelectorAll : document -> string -> Js.outcome (list nat).

(** The imported helper [parseFlags], read through [hasFlag]. *)
Variable parseFlags : string -> flag -> bool.

Section Invocation.

(** [attrs] after the split, [selector] after its default, and the flags. *)
Variable attrs : list string.
Variable selector : string.
Variable hasFlag : flag -> bool.

(** The body of [nodes.forEach]: the inner [attrs.forEach] on one node. *)
Definition strip (acc : document * bool) (n : nat) : document * bool :=
  fold_left (fun acc attr => (update n (removeAttribute attr) (fst acc), true))
            attrs acc.

(** [rmattr]. *)
Definition rmattr (p : page) : page :=
  let '(nodes, out) :=
    match querySelectorAll (dom p) selector with
    | Js.Returns found => (found, console p)
    | Js.Throws _ =>
        ([], console p
              ++ [("Invalid remove-attr selector arg: '" ++ selector ++ "'")%string])
    end in
  let '(d, removed) := fold_left strip nodes (dom p, false) in
  mkPage d (ready p) (onDOMContentLoaded p) (onLoad p) (observers p)
         (S (rmattrRuns p))
         (if removed then S (hits p) else hits p)
         out.

(** Modelled from the spec: the helper [observeDOMChanges] of [../helpers]
    (the Mutation Watcher), whose source is missing: it binds the callback
    to the change notifications of the document, attribute changes included
    when asked for. *)
Definition observeDOMChanges (cb : callback) (observeAttributes : bool)
    (p : page) : page :=
  mkPage (dom p) (ready p) (onDOMContentLoaded p) (onLoad p)
         (observers p ++ [(cb, observeAttributes)])
         (rmattrRuns p) (hits p) (console p).

(** [run]. *)
Definition run (p : page) : page :=
  let p := rmattr p in
  if negb (hasFlag STAY) then p
  else observeDOMChanges Rmattr true p.

Definition call (cb : callback) (p : page) : page :=
  match cb with
  | Rmattr => rmattr p
  | Run => run p
  end.

Definition addDOMContentLoaded (cb : callback) (p : page) : page :=
  mkPage (dom p) (ready p) (onDOMContentLoaded p ++ [cb]) (onLoad p)
         (observers p) (rmattrRuns p) (hits p) (console p).

Definition addLoad (cb : callback) (p : page) : page :=
  mkPage (dom p) (ready p) (onDOMContentLoaded p) (onLoad p ++ [cb])
         (observers p) (rmattrRuns p) (hits p) (console p).

(** The part of [removeAttr] after [parseFlags]. *)
Definition schedule (applying : string) (p : page) : page :=
  let p :=
    if hasFlag ASAP then
      if is_loading (ready p) then addDOMContentLoaded Rmattr p
      else rmattr p
    else p in
  if negb (is_complete (ready p)) && hasFlag COMPLETE then addLoad Run p
  else if hasFlag STAY then
    let p :=
      if bool_strict_ne_number (not_number (Js.indexOf applying " ")) (-1)
      then rmattr p else p in
    observeDOMChanges Rmattr true p
  else p.

(** The host's side.  Both listeners are registered with [once: true].
    Modelled from the spec: the delivery of change batches to the callbacks
    bound by [observeDOMChanges], one call per batch. *)
Definition dispatch (p : page) (e : event) : page :=
  match e with
  | DOMContentLoaded =>
      let listeners := onDOMContentLoaded p in
      fold_left (fun p cb => call cb p) listeners
        (mkPage (dom p) Interactive [] (onLoad p) (observers p)
                (rmattrRuns p) (hits p) (console p))
  | Load =>
      let listeners := onLoad p in
      fold_left (fun p cb => call cb p) listeners
        (mkPage (dom p) Complete (onDOMContentLoaded p) [] (observers p)
                (rmattrRuns p) (hits p) (console p))
  | Mutation d attributesOnly =>
      let bound := observers p in
      fold_left (fun p ob =>
                   if attributesOnly && negb (snd ob) then p
                   else call (fst ob) p)
        bound
        (mkPage d (ready p) (onDOMContentLoaded p) (onLoad p) (observers p)
                (rmattrRuns p) (hits p) (console p))
  end.

Definition dispatch_all (p : page) (events : list event) : page :=
  fold_left dispatch events p.

End Invocation.

(** [removeAttr(source, attrs, selector, applying = 'asap stay')]: the page
    as the call leaves it, with the closure the registered callbacks run
    in ([attrs] after the split, the selector, the flags). *)
Definition applying_or_default (applying : option string) : string :=
  match applying with
  | Some a => a
  | None => "asap stay"
  end.

Definition attrs_of (attrs : string) : list string := split_attrs attrs.

Definition selector_of (attrs : string) (selector : option string) : string :=
  match selector with
  | Some s =>
      if Js.truthy_string s then s
      else ("[" ++ Js.join "],[" (attrs_of attrs) ++ "]")%string
  | None => ("[" ++ Js.join "],[" (attrs_of attrs) ++ "]")%string
  end.

Definition removeAttr (attrs : option string) (selector : option string)
    (applying : option string) (p : page) : page :=
  match attrs with
  | None => p
  | Some a =>
      if negb (Js.truthy_string a) then p
      else
        let applying := applying_or_default applying in
        schedule (attrs_of a) (selector_of a selector)
                 (parseFlags applying) applying p
  end.

(** The page after [removeAttr] and then the host's [events]; the
    callbacks registered by the call run in its closure. *)
Definition lifetime (attrs : option string) (selector : option string)
    (applying : option string) (p : page) (events : list event) : page :=
  let a := match attrs with Some a => a | None => EmptyString end in
  dispatch_all (attrs_of a) (selector_of a selector)
               (parseFlags (applying_or_default applying))
               (removeAttr attrs selector applying p) events.

End Host.

Definition flag_name (f : flag) : string :=
  match f with
  | ASAP => "asap"
  | COMPLETE => "complete"
  | STAY => "stay"
  end.

Definition recognized (token : string) : bool :=
  String.eqb token "asap" || String.eqb token "complete"
  || String.eqb token "stay".

(** The pieces of a string between its white-space characters. *)
Fixpoint tokens (s : string) : list string :=
  match s with
  | EmptyString => [EmptyString]
  | String c rest =>
      if Js.isWhiteSpace c then EmptyString :: tokens rest
      else match tokens rest with
           | t :: ts => String c t :: ts
           | [] => [String c EmptyString]
           end
  end.

(** Modelled from the spec: the helper [parseFlags] of [../helpers] (the
    Flag Scheduler), whose source is missing: the string is split at white
    space, the recognized tokens [asap], [complete] and [stay] are kept,
    unknown tokens are dropped, and a string without a recognized token
    gives the default set, [asap stay]. *)
Definition parseFlags (flags : string) (f : flag) : bool :=
  let passed := filter recognized (tokens flags) in
  let passed := match passed with [] => ["asap"; "stay"] | _ => passed end in
  existsb (String.eqb (flag_name f)) passed.

End RemoveAttr.

(* ================================================================== *)
(** * prevent-requestAnimationFrame
      ([src/scriptlets/prevent-requestAnimationFrame.js]) *)
(* ================================================================== *)

Module PreventRequestAnimationFrame.

(** A function handed to [requestAnimationFrame]: a callback of the page,
    known by its text ([callback.toString()]), or the helper [noopFunc]. *)
Inductive callback : Type :=
| PageCallback (text : string)
| noopFunc.

Definition toString (cb : callback) : string :=
  match cb with
  | PageCallback text => text
  | noopFunc => "function noopFunc() {}"
  end.

(** The calls of [hit]: [hit(source)] and [hit(source, logMessage)]. *)
Inductive effect : Type :=
| Hit
| HitLog (message : string).

(** Modelled from the spec: the helper [startsWith] of [../helpers], whose
    source is missing: a leading [!] negates a match string; an omitted
    string has no leading [!]. *)
Definition startsWith (str : option string) (marker : string) : bool :=
  match str with
  | Some s => prefix marker s
  | None => false
  end.

Definition INVERT_MARKER : string := "!".

Section Host.

(** The imported helper [toRegExp] (its argument may be [undefined]) and
    [RegExp.prototype.test]. *)
Variable RegExp : Type.
Variable toRegExp : option string -> RegExp.
Variable test : RegExp -> string -> bool.

(** The further arguments of a [requestAnimationFrame] call. *)
Variable Arg : Type.

(** A call of the native [requestAnimationFrame]. *)
Record nativeCall : Type := mkNativeCall {
  passed : callback;
  passedArgs : list Arg
}.

Section Installed.

(** The scriptlet's argument, [None] when omitted. *)
Variable search : option string.

Definition shouldLog : bool :=
  match search with
  | None => true
  | Some _ => false
  end.

Definition doNotMatch : bool := startsWith search INVERT_MARKER.

Definition rawMatch : option string :=
  if doNotMatch then option_map Js.slice1 search else search.

Definition matchRegexp : RegExp := toRegExp rawMatch.

(** [rafWrapper(callback, ...args)]: the call of the native function it
    ends with and the calls of [hit] before it. *)
Definition rafWrapper (cb : callback) (args : list Arg)
  : nativeCall * list effect :=
  let '(shouldPrevent, logged) :=
    if shouldLog then
      (false,
       [HitLog ("log: requestAnimationFrame(" ++ Js.quote ++ toString cb
                ++ Js.quote ++ ")")%string])
    else (negb (Bool.eqb (test matchRegexp (toString cb)) doNotMatch), []) in
  if shouldPrevent then (mkNativeCall noopFunc [], logged ++ [Hit])
  else (mkNativeCall cb args, logged).

End Installed.

End Host.

End PreventRequestAnimationFrame.

(* ================================================================== *)
(** * The helper [hit] ([dist/redirect-files/ati-smarttag.js]) *)
(* ================================================================== *)

Module Hit.

(** The fields of [source] that [hit] reads; [verbose] is
    [source.verbose === true], the others may be [undefined]. *)
Record source : Type := mkSource {
  verbose : bool;
  ruleText : option string;
  domainName : option string
}.

(** A call of the console: [console.log(text)] or [console.trace()]. *)
Inductive entry : Type :=
| LogLine (text : string)
| Trace.

Definition AG_SCRIPTLET_MARKER : string := "#%#//".
Definition UBO_SCRIPTLET_MARKER : string := "##+js".
Definition LOG_MARKER : string := "log: ".

Definition newline : string := String (ascii_of_nat 10) EmptyString.

(** [s.slice(n)] for a number [n] that is not negative. *)
Fixpoint sliceFrom (n : nat) (s : string) : string :=
  match n, s with
  | O, _ => s
  | S _, EmptyString => EmptyString
  | S m, String _ rest => sliceFrom m rest
  end.

(** [s.slice(start)] where [start] is [undefined] or an index that
    [indexOf] found. *)
Definition slice (start : option Z) (s : string) : string :=
  match start with
  | None => s
  | Some i => sliceFrom (Z.to_nat i) s
  end.

(** [ruleStartIndex]: declared without a value and assigned when one of
    the markers occurs in the rule text. *)
Definition ruleStartIndex (text : string) : option Z :=
  if (Js.indexOf text AG_SCRIPTLET_MARKER >? -1)%Z
  then Some (Js.indexOf text AG_SCRIPTLET_MARKER)
  else if (Js.indexOf text UBO_SCRIPTLET_MARKER >? -1)%Z
       then Some (Js.indexOf text UBO_SCRIPTLET_MARKER)
       else None.

(** The value of [prefix] when the message is written.  With a domain
    name and no rule text, [source.ruleText.indexOf] throws. *)
Definition prefixOf (s : source) : Js.outcome string :=
  let prefix :=
    match ruleText s with
    | Some text => if Js.truthy_string text then text else EmptyString
    | None => EmptyString
    end in
  match domainName s with
  | Some domain =>
      if Js.truthy_string domain then
        match ruleText s with
        | Some text =>
            let rulePart := slice (ruleStartIndex text) text in
            Js.Returns (domain ++ rulePart)%string
        | None => Js.Throws Js.TypeError
        end
      else Js.Returns prefix
  | None => Js.Returns prefix
  end.

(** The line written for the message, if there is a message. *)
Definition messageLine (prefix : string) (message : option string)
  : list entry :=
  match message with
  | Some m =>
      if Js.truthy_string m then
        if (Js.indexOf m LOG_MARKER =? -1)%Z
        then [LogLine (prefix ++ " message:" ++ newline ++ m)%string]
        else [LogLine (sliceFrom (String.length LOG_MARKER) m)]
      else []
  | None => []
  end.

(** The body of the [try] block, with a console that works. *)
Definition logged (s : source) (message : option string)
  : Js.outcome (list entry) :=
  prefix <- prefixOf s ;;
  Js.Returns (messageLine prefix message
              ++ [LogLine (prefix ++ " trace start")%string;
                  Trace;
                  LogLine (prefix ++ " trace end")%string]).

(** [hit(source, message)]: what the console receives and whether
    [window.__debug] is called; [hasDebug] is
    [typeof window.__debug === 'function'].  The [catch] block swallows what
    the [try] block throws. *)
Definition hit (hasDebug : bool) (s : source) (message : option string)
  : list entry * bool :=
  if negb (verbose s) then ([], false)
  else
    (match logged s message with
     | Js.Returns entries => entries
     | Js.Throws _ => []
     end,
     hasDebug).

End Hit.

(* ================================================================== *)
(** * Instances of the host interfaces, for closed examples *)
(* ================================================================== *)

Module Examples.

(** A regular expression without metacharacters matches the subjects that
    contain it. *)
Definition literal (pattern : string) : string := pattern.

Definition literal_opt (pattern : option string) : string :=
  match pattern with
  | Some p => p
  | None => EmptyString
  end.

Definition contains (pattern subject : string) : bool :=
  (0 <=? Js.indexOf subject pattern)%Z.

(** A selector engine that knows the attribute selector [[name]] only. *)
Definition has_attribute (name : string) (n : RemoveAttr.node) : bool :=
  existsb (fun a => String.eqb (fst a) name) n.

Definition attribute_name (selector : string) : option string :=
  match selector with
  | String "[" rest =>
      match Js.pop (list_ascii_of_string rest) with
      | Some "]"%char =>
          Some (string_of_list_ascii (removelast (list_ascii_of_string rest)))
      | _ => None
      end
  | _ => None
  end.

Definition querySelectorAll (d : RemoveAttr.document) (selector : string)
  : Js.outcome (list nat) :=
  match attribute_name selector with
  | Some name =>
      Js.Returns
        (map fst (filter (fun n => has_attribute name (snd n))
                         (combine (seq 0 (length d)) d)))
  | None => Js.Throws Js.SyntaxError
  end.

(** The parsed value [{one: 1}]. *)
Definition one : JsonPrune.value :=
  JsonPrune.VObj [("one", JsonPrune.VNum 1)].

(** A document in which exactly the selector [sel] finds an element. *)
Definition just (sel : string) (target : TrustedClickElem.element)
  : TrustedClickElem.document :=
  fun s => if String.eqb s sel then TrustedClickElem.Found target
           else TrustedClickElem.NotFound.

End Examples.

(* ================================================================== *)
(** * Properties the theorems are stated with *)
(* ================================================================== *)

(** [needle] occurs in [s]. *)
Definition occurs (needle s : string) : Prop :=
  exists before after, s = (before ++ needle ++ after)%string.

(** A list has an element. *)
Definition nonempty {A : Type} (xs : list A) : bool :=
  match xs with
  | [] => false
  | _ :: _ => true
  end.

(** [s] holds no space. *)
Fixpoint spaceless (s : string) : bool :=
  match s with
  | EmptyString => true
  | String c rest => negb (Ascii.eqb c " ") && spaceless rest
  end.

(** [s] does not hold the character [c]. *)
Fixpoint lacks (c : ascii) (s : string) : bool :=
  match s with
  | EmptyString => true
  | String x rest => negb (Ascii.eqb x c) && lacks c rest
  end.

(** [v == null]: [v] is [null] or [undefined]. *)
Definition nullish (v : JsonPrune.value) : bool :=
  match v with
  | JsonPrune.VUndefined | JsonPrune.VNull => true
  | _ => false
  end.

(** The names every object inherits from [Object.prototype] in a page
    that has added none to it: read on a parsed object, each of them gives a
    function or the prototype, not [undefined]. *)
Definition Object_prototype_names : list string :=
  ["constructor"; "hasOwnProperty"; "isPrototypeOf"; "propertyIsEnumerable";
   "toLocaleString"; "toString"; "valueOf"; "__proto__";
   "__defineGetter__"; "__defineSetter__"; "__lookupGetter__";
   "__lookupSetter__"]%string.

(** The owner found is a parsed object and [name] is none of the names it
    inherits, so that reading [name] on it reads an own property or gives
    [undefined]. *)
Definition plain_owner (name : string) (d : JsonPrune.Chain) : bool :=
  match JsonPrune.base d with
  | JsonPrune.VObj _ => negb (existsb (String.eqb name) Object_prototype_names)
  | _ => false
  end.

(** [!(d.base[name] === undefined)] for a location whose owner is not
    nullish. *)
Definition defined_at (name : string) (d : JsonPrune.Chain) : bool :=
  match JsonPrune.get_own (JsonPrune.base d) name with
  | Some v => negb (JsonPrune.is_undefined v)
  | None => false
  end.

(** No listener and no observer is registered. *)
Definition settled (p : RemoveAttr.page) : Prop :=
  RemoveAttr.onDOMContentLoaded p = []
  /\ RemoveAttr.onLoad p = []
  /\ RemoveAttr.observers p = [].

Definition is_load (e : RemoveAttr.event) : bool :=
  match e with
  | RemoveAttr.Load => true
  | _ => false
  end.

Definition is_domContentLoaded (e : RemoveAttr.event) : bool :=
  match e with
  | RemoveAttr.DOMContentLoaded => true
  | _ => false
  end.

(** The node without the attributes whose name is one of [attrs] put in
    lower case. *)
Definition without (attrs : list string) (n : RemoveAttr.node)
  : RemoveAttr.node :=
  filter (fun a => negb (existsb (String.eqb (fst a))
                           (map RemoveAttr.lowercase attrs))) n.

(** The three console calls that close every report of [hit]. *)
Definition framed (prefix : string) : list Hit.entry :=
  [Hit.LogLine (prefix ++ " trace start")%string;
   Hit.Trace;
   Hit.LogLine (prefix ++ " trace end")%string].

Definition is_mutation (e : TrustedClickElem.event) : bool :=
  match e with
  | TrustedClickElem.Mutation _ => true
  | TrustedClickElem.Timeout => false
  end.

(** [hit] has not been called, or it has been called once and the observer
    is disconnected. *)
Definition hit_means_disconnected (m : TrustedClickElem.machine) : Prop :=
  TrustedClickElem.hits m = 0
  \/ (TrustedClickElem.observing m = false /\ TrustedClickElem.hits m = 1).

(** While the observer is connected the clicks made, the current selector
    and the queue add up to the [n] targets; afterwards the clicks are at
    most [n]. *)
Definition within_targets (n : nat) (m : TrustedClickElem.machine) : Prop :=
  (TrustedClickElem.observing m = true
   /\ length (TrustedClickElem.clicked m) + 1
      + length (TrustedClickElem.selectorsQueue m) = n)
  \/ (TrustedClickElem.observing m = false
      /\ length (TrustedClickElem.clicked m) <= n).



(* ================================================================== *)
(** * Strings: [indexOf], [split] and [join] *)
(* ================================================================== *)

Lemma prefix_app (p s : string) :
  prefix p s = true <-> exists rest, s = (p ++ rest)%string.
Proof.
  revert s; induction p as [|c p IH]; intros s.
  - split; [intros _; exists s; reflexivity | intros _; now destruct s].
  - destruct s as [|d s]; simpl.
    + split; [discriminate | intros [rest H]; discriminate].
    + destruct (ascii_dec c d) as [->|ne].
      * rewrite IH. split; intros [rest H]; exists rest.
        -- now rewrite H.
        -- now inversion H.
      * split; [discriminate | intros [rest H]; inversion H; congruence].
Qed.

Lemma indexOf_unfold (s needle : string) :
  Js.indexOf s needle =
  if prefix needle s then 0%Z
  else match s with
       | EmptyString => (-1)%Z
       | String _ rest =>
           let i := Js.indexOf rest needle in
           if (i <? 0)%Z then (-1)%Z else (1 + i)%Z
       end.
Proof. destruct s; reflexivity. Qed.

Lemma indexOf_lower_bound (s needle : string) : (-1 <= Js.indexOf s needle)%Z.
Proof.
  induction s as [|c s IH]; rewrite indexOf_unfold.
  - destruct (prefix needle EmptyString); lia.
  - destruct (prefix needle (String c s)); [lia|]. cbv zeta.
    destruct (Js.indexOf s needle <? 0)%Z eqn:E; [lia|].
    apply Z.ltb_ge in E. lia.
Qed.

Lemma indexOf_found (s needle : string) :
  (Js.indexOf s needle >? -1)%Z = true <-> occurs needle s.
Proof.
  rewrite Z.gtb_ltb, Z.ltb_lt.
  induction s as [|c s IH]; rewrite indexOf_unfold.
  - destruct (prefix needle EmptyString) eqn:P.
    + split; [intros _ | lia].
      apply prefix_app in P. destruct P as [rest P].
      exists EmptyString, rest. exact P.
    + split; [lia|]. intros [before [after H]].
      destruct before; [|discriminate]. simpl in H.
      assert (prefix needle EmptyString = true)
        by (apply prefix_app; exists after; exact H).
      congruence.
  - destruct (prefix needle (String c s)) eqn:P.
    + split; [intros _ | lia].
      apply prefix_app in P. destruct P as [rest P].
      exists EmptyString, rest. exact P.
    + cbv zeta. destruct (Js.indexOf s needle <? 0)%Z eqn:E.
      * apply Z.ltb_lt in E. split; [lia|].
        intros [before [after H]]. destruct before as [|b before].
        -- simpl in H.
           assert (prefix needle (String c s) = true)
             by (apply prefix_app; exists after; exact H).
           congruence.
        -- inversion H; subst.
           assert (-1 < Js.indexOf (before ++ needle ++ after) needle)%Z
             by (apply IH; exists before, after; reflexivity).
           lia.
      * apply Z.ltb_ge in E. split; [intros _ | lia].
        destruct IH as [IH _]. destruct IH as [before [after H]]; [lia|].
        exists (String c before), after. simpl. now rewrite H.
Qed.

Lemma split_nonempty (sep : ascii) (s : string) : Js.split sep s <> [].
Proof.
  destruct s as [|c s]; simpl; [discriminate|].
  destruct (Ascii.eqb c sep); [discriminate|].
  destruct (Js.split sep s); discriminate.
Qed.

Lemma join_cons (sep x : string) (xs : list string) :
  xs <> [] -> Js.join sep (x :: xs) = (x ++ sep ++ Js.join sep xs)%string.
Proof. destruct xs; [congruence | reflexivity]. Qed.

Lemma append_assoc (a b c : string) :
  ((a ++ b) ++ c = a ++ b ++ c)%string.
Proof. induction a as [|x a IH]; simpl; [reflexivity | now rewrite IH]. Qed.

Lemma append_empty_r (a : string) : (a ++ EmptyString)%string = a.
Proof. induction a as [|x a IH]; simpl; [reflexivity | now rewrite IH]. Qed.

Lemma join_app (sep : string) (xs ys : list string) :
  xs <> [] -> ys <> [] ->
  Js.join sep (xs ++ ys) = (Js.join sep xs ++ sep ++ Js.join sep ys)%string.
Proof.
  intros Hx Hy. induction xs as [|x xs IH]; [congruence|].
  destruct xs as [|x' xs].
  - simpl app. now rewrite join_cons.
  - change ((x :: x' :: xs) ++ ys) with (x :: ((x' :: xs) ++ ys)).
    rewrite join_cons by discriminate.
    rewrite IH by discriminate.
    rewrite (join_cons sep x (x' :: xs)) by discriminate.
    now rewrite !append_assoc.
Qed.

Lemma join_push (sep : string) (c : ascii) (x : string) (xs : list string) :
  Js.join sep (String c x :: xs) = String c (Js.join sep (x :: xs)).
Proof. destruct xs; reflexivity. Qed.

(** Joining the pieces with the separator gives the string back. *)
Lemma join_split (sep : ascii) (s : string) :
  Js.join (String sep EmptyString) (Js.split sep s) = s.
Proof.
  induction s as [|c s IH]; [reflexivity|].
  simpl Js.split. destruct (Ascii.eqb c sep) eqn:E.
  - apply Ascii.eqb_eq in E. subst c.
    rewrite join_cons by apply split_nonempty.
    rewrite IH. reflexivity.
  - pose proof (split_nonempty sep s) as NE.
    destruct (Js.split sep s) as [|piece pieces]; [congruence|].
    rewrite join_push. now rewrite IH.
Qed.

Lemma join_head (sep x : string) (xs : list string) :
  exists rest, Js.join sep (x :: xs) = (x ++ rest)%string.
Proof.
  destruct xs as [|y ys].
  - exists EmptyString. simpl. now rewrite append_empty_r.
  - eexists. reflexivity.
Qed.

(* ================================================================== *)
(** * json-prune: the predicate [isPruningNeeded] and the wrapper *)
(* ================================================================== *)

Import JsonPrune.

Lemma hasWildcard_occurs (requiredPath : string) :
  hasWildcard requiredPath = true <->
  occurs "*." requiredPath \/ occurs ".*" requiredPath.
Proof.
  unfold hasWildcard. rewrite !orb_true_iff, !indexOf_found. split.
  - intros [[[before [after H]] | H] | H]; auto.
    right. exists before, ("." ++ after)%string. exact H.
  - intros [H | H]; auto.
Qed.

(** With two segments or more, a segment equal to the star has a dot next
    to it in the path. *)
Lemma star_segment_occurs (requiredPath : string) :
  In "*"%string (Js.split "." requiredPath) ->
  2 <= length (Js.split "." requiredPath) ->
  occurs "*." requiredPath \/ occurs ".*" requiredPath.
Proof.
  intros Hin Hlen. pose proof (join_split "." requiredPath) as J.
  apply in_split in Hin. destruct Hin as [l1 [l2 Hl]].
  rewrite Hl in J, Hlen. destruct l1 as [|x l1].
  - left. destruct l2 as [|y l2]; [simpl in Hlen; lia|].
    simpl app in J. rewrite join_cons in J by discriminate.
    exists EmptyString, (Js.join "." (y :: l2)). now rewrite <- J.
  - right. rewrite join_app in J by discriminate.
    destruct (join_head "." "*" l2) as [rest Hr]. rewrite Hr in J.
    exists (Js.join "." (x :: l1)), rest. now rewrite <- J.
Qed.

Lemma single_segment (requiredPath seg : string) :
  Js.split "." requiredPath = [seg] -> requiredPath = seg.
Proof.
  intros H. pose proof (join_split "." requiredPath) as J.
  rewrite H in J. now rewrite <- J.
Qed.

(** C7, as amended.  A required path is classified as a wildcard path
    exactly when the string contains a star next to a dot (one of the
    substrings [*.] and [.*]).  So a path with a dot-separated segment equal
    to the star is classified as a wildcard path exactly when it has two
    segments or more. *)
Theorem hasWildcard_star_next_to_dot (requiredPath : string) :
  (hasWildcard requiredPath = true <->
   occurs "*." requiredPath \/ occurs ".*" requiredPath)
  /\ (In "*"%string (Js.split "." requiredPath) ->
      (hasWildcard requiredPath = true <->
       2 <= length (Js.split "." requiredPath))).
Proof.
  split; [apply hasWildcard_occurs|].
  intros Hin. split.
  - intros Hw.
    destruct (Js.split "." requiredPath) as [|seg [|seg' segs]] eqn:E.
    + now apply split_nonempty in E.
    + apply single_segment in E. destruct Hin as [Hs|[]].
      subst seg requiredPath. discriminate Hw.
    + simpl. lia.
  - intros Hlen. apply hasWildcard_occurs.
    now apply star_segment_occurs.
Qed.

Lemma hasWildcard_star_next_to_dot_witness :
  In "*"%string (Js.split "." "a.*.b") /\ hasWildcard "a.*.b" = true.
Proof.
  split.
  - simpl. auto.
  - apply (proj2 (hasWildcard_star_next_to_dot "a.*.b")).
    + simpl. auto.
    + simpl. lia.
Defined.

(** C7, as stated, fails on the one-segment path made of the star: its only
    segment equals the star, and it is not classified as a wildcard path. *)
Lemma hasWildcard_lone_star_not_wildcard :
  ~ (hasWildcard "*" = true <-> In "*"%string (Js.split "." "*")).
Proof.
  intros [_ H].
  assert (W : hasWildcard "*" = true) by (apply H; simpl; auto).
  discriminate W.
Qed.

(** The value [isPruningNeeded] returns is the one its last turn assigns:
    the turns before it leave no trace. *)
Lemma requiredLoop_last
    (gpc : value -> string -> bool -> bool -> list Chain)
    (root : value) (paths : list string) (requiredPath : string)
    (shouldProcess v : value) :
  requiredLoop gpc root (paths ++ [requiredPath]) shouldProcess = Js.Returns v ->
  exists b, checkPath gpc root requiredPath = Js.Returns b /\ v = VBool b.
Proof.
  revert shouldProcess. induction paths as [|p paths IH]; intros sp H; simpl in H.
  - destruct (checkPath gpc root requiredPath) as [b|e]; simpl in H.
    + exists b. split; [reflexivity | congruence].
    + discriminate.
  - destruct (checkPath gpc root p) as [b|e]; simpl in H.
    + eapply IH; eauto.
    + discriminate.
Qed.

(** C1: the code at the failing input.  Against [{one: 1}] the list
    [["two", "one"]] is reported as satisfied, whatever the turn of [two]
    computed, as soon as the resolver locates [one] at the root. *)
Theorem isPruningNeeded_two_one_satisfied
    (gpc : value -> string -> bool -> bool -> list Chain) (b : bool) :
  checkPath gpc Examples.one "two" = Js.Returns b ->
  gpc Examples.one "one" false false = [mkChain [] Examples.one "one"] ->
  isPruningNeeded gpc ["two"; "one"] Examples.one = Js.Returns (VBool true).
Proof.
  intros Htwo Hone. unfold isPruningNeeded. simpl.
  rewrite Htwo. simpl. unfold checkPath.
  change (hasWildcard "one") with false.
  rewrite Hone. reflexivity.
Qed.

Lemma isPruningNeeded_two_one_satisfied_witness :
  isPruningNeeded resolver ["two"; "one"] Examples.one = Js.Returns (VBool true).
Proof.
  apply (isPruningNeeded_two_one_satisfied resolver true); reflexivity.
Defined.

(** C5, as amended.  For a truthy root and an empty list of required
    paths [isPruningNeeded] returns [undefined], which is not [false]; the
    wrapper skips pruning only on [false], so with something to prune it
    prunes and calls [hit]. *)
Theorem isPruningNeeded_empty_is_undefined
    (gpc : value -> string -> bool -> bool -> list Chain)
    (hostname : string) (prunePaths : list string) (root : value) :
  truthy root = true ->
  isPruningNeeded gpc [] root = Js.Returns VUndefined
  /\ (prunePaths <> [] ->
      parseWrapper gpc hostname prunePaths [] root =
      Js.Returns (prune gpc prunePaths root, [Hit])).
Proof.
  intros T. unfold parseWrapper, isPruningNeeded. rewrite T. simpl.
  split; [reflexivity|].
  intros NE. destruct prunePaths; [congruence | reflexivity].
Qed.

Lemma isPruningNeeded_empty_is_undefined_witness :
  isPruningNeeded resolver [] Examples.one = Js.Returns VUndefined
  /\ parseWrapper resolver "example.org" ["one"] [] Examples.one =
     Js.Returns (VObj [], [Hit]).
Proof.
  destruct (isPruningNeeded_empty_is_undefined resolver "example.org" ["one"]
              Examples.one eq_refl) as [U P].
  split; [exact U|].
  rewrite P by discriminate. reflexivity.
Defined.

(** C5, as stated, fails against [{one: 1}]: the root is truthy, the
    predicate on the empty list does not return [false], and the wrapper,
    which has no special case for the empty list, prunes. *)
Lemma isPruningNeeded_empty_not_false :
  truthy Examples.one = true
  /\ isPruningNeeded resolver [] Examples.one <> Js.Returns (VBool false)
  /\ parseWrapper resolver "example.org" ["one"] [] Examples.one
     <> Js.Returns (Examples.one, []).
Proof.
  split; [reflexivity|]. split; discriminate.
Qed.

(* ================================================================== *)
(** * trusted-click-elem: the gate, the sequence and the timer *)
(* ================================================================== *)

Section TrustedClickElemFacts.

Import TrustedClickElem.

Lemma run_idle (events : list event) : run idle events = idle.
Proof.
  induction events as [|e events IH]; [reflexivity|].
  unfold run in *. simpl. destruct e; exact IH.
Qed.

Lemma step_timeout_observing (m : machine) :
  observing (step m Timeout) = observing m.
Proof. unfold step. destruct (timer m); reflexivity. Qed.





(** A batch clicks at most one element, the one the current selector
    finds; when it finds none, or does not parse, nothing changes. *)
Lemma click_needs_target (m : machine) (doc : document) :
  match doc (selector_text (currentSelector m)) with
  | Found target =>
      clicked (step m (Mutation doc))
      = if observing m
        then clicked m ++ [(selector_text (currentSelector m), target)]
        else clicked m
  | _ => step m (Mutation doc) = m
  end.
Proof.
  unfold step, clickHandler.
  destruct (doc (selector_text (currentSelector m))) as [target| |];
    destruct (observing m); try reflexivity.
  destruct (shift (selectorsQueue m)) as [next rest].
  destruct (negb (Js.truthy_arg next)); reflexivity.
Qed.




(** C2: the code at the failing input.  The timer's handler throws and
    leaves the observer connected; with the target list [#missing], a batch
    that arrives after the timeout and brings the target is still handled:
    the target is clicked and [hit] is called. *)
Theorem timeout_leaves_observer_connected :
  (forall m : machine, observing (step m Timeout) = observing m)
  /\ (forall (RegExp : Type) (toRegExp : string -> RegExp)
             (test : RegExp -> string -> bool) (w : window) (target : element),
        let started :=
          trustedClickElem RegExp toRegExp test w "#missing" None None in
        let late := TrustedClickElem.run started
                      [Timeout; Mutation (Examples.just "#missing" target)] in
        observing (step started Timeout) = true
        /\ clicked late = [("#missing"%string, target)]
        /\ hits late = 1).
Proof.
  split; [apply step_timeout_observing|].
  intros. repeat split.
Qed.

(** C4: the code at the failing input.  The outcome of an invocation does
    not depend on the cookie: the expression built from [cookieMatch] is
    tested on the address.  With [cookieMatch] set to [session], the cookie
    [session=1] and the address [https://example.org/], the cookie matches
    and the machine does not start. *)
Theorem cookieMatch_tested_on_href :
  (forall (RegExp : Type) (toRegExp : string -> RegExp)
          (test : RegExp -> string -> bool)
          (address cookie1 cookie2 selectors : string)
          (hrefMatch cookieMatch : option string),
      trustedClickElem RegExp toRegExp test (mkWindow address cookie1)
        selectors hrefMatch cookieMatch
      = trustedClickElem RegExp toRegExp test (mkWindow address cookie2)
          selectors hrefMatch cookieMatch)
  /\ (let w := mkWindow "https://example.org/" "session=1" in
      Examples.contains (Examples.literal "session") (cookie w) = true
      /\ trustedClickElem string Examples.literal Examples.contains w
           "#accept" None (Some "session"%string) = idle).
Proof.
  split; [reflexivity|]. split; reflexivity.
Qed.

(** The gates as coded.  When [isPruningNeeded] returns [false] the
    wrapper returns the parsed value as it is and does not call [hit]; when
    [hrefMatched] or [cookieMatched] is [false], [trustedClickElem] returns
    with no observer, no timer, no click and no [hit], and nothing happens
    later. *)
Lemma failed_precondition_is_silent :
  (forall (gpc : value -> string -> bool -> bool -> list Chain)
          (hostname : string) (prunePaths requiredPaths : list string)
          (r : value),
      isPruningNeeded gpc requiredPaths r = Js.Returns (VBool false) ->
      exists logged,
        parseWrapper gpc hostname prunePaths requiredPaths r
        = Js.Returns (r, logged)
        /\ ~ In Hit logged)
  /\ (forall (RegExp : Type) (toRegExp : string -> RegExp)
             (test : RegExp -> string -> bool)
             (w : window) (selectors : string)
             (hrefMatch cookieMatch : option string) (events : list event),
        hrefMatched w hrefMatch = false
        \/ cookieMatched RegExp toRegExp test w cookieMatch = false ->
        let m := trustedClickElem RegExp toRegExp test w selectors
                   hrefMatch cookieMatch in
        m = idle
        /\ observing m = false /\ timer m = None
        /\ clicked (TrustedClickElem.run m events) = []
        /\ hits (TrustedClickElem.run m events) = 0).
Proof.
  split.
  - intros gpc hostname prunePaths requiredPaths r H.
    unfold parseWrapper. destruct prunePaths as [|p ps].
    + eexists. split; [reflexivity|]. simpl. intros [F|[]]. discriminate F.
    + rewrite H. simpl. eexists. split; [reflexivity|]. intros [].
  - intros RegExp toRegExp test w selectors hrefMatch cookieMatch events H m.
    assert (E : m = idle).
    { unfold m, trustedClickElem.
      destruct H as [H|H]; rewrite H; simpl; [reflexivity|].
      now rewrite orb_true_r. }
    rewrite E, run_idle. repeat split.
Qed.

Lemma failed_precondition_is_silent_witness :
  (let r := VObj [("items"%string, VArr [VObj []; VObj []])] in
   exists logged,
     parseWrapper resolver "example.org" ["items.*.id"] ["items.*.id"] r
     = Js.Returns (r, logged)
     /\ ~ In Hit logged)
  /\ (let m := trustedClickElem string Examples.literal Examples.contains
                 (mkWindow "https://example.org/" "session=1") "#accept"
                 (Some "cookie wall"%string) None in
      m = idle).
Proof.
  split.
  - apply (proj1 failed_precondition_is_silent). reflexivity.
  - apply (proj2 failed_precondition_is_silent string Examples.literal
             Examples.contains
             (mkWindow "https://example.org/" "session=1") "#accept"
             (Some "cookie wall"%string) None []).
    left. reflexivity.
Defined.

(** Reading a property of an owner that is [null] throws out of the
    wrapper, when the resolver hands back such an owner. *)
Lemma null_owner_throws
    (gpc : value -> string -> bool -> bool -> list Chain)
    (hostname prunePath requiredPath : string) (r : value)
    (at_ : list string) (name : string) :
  truthy r = true ->
  gpc r requiredPath false (hasWildcard requiredPath)
  = [mkChain at_ VNull name] ->
  parseWrapper gpc hostname [prunePath] [requiredPath] r
  = Js.Throws Js.TypeError.
Proof.
  intros T H. unfold parseWrapper, isPruningNeeded. rewrite T. simpl.
  unfold checkPath. rewrite H. reflexivity.
Qed.

(** C8: the code at the failing inputs.  The required path [two] is absent
    from [{one: 1}], yet with the required paths [two one] the wrapper
    prunes [one] and calls [hit]; the cookie of the page does not match
    [example], yet the machine starts, and clicks and calls [hit] at the
    next batch, because the address matches. *)
Theorem unmet_precondition_still_acts :
  (forall (gpc : value -> string -> bool -> bool -> list Chain)
          (hostname : string) (b : bool),
      checkPath gpc Examples.one "two" = Js.Returns b ->
      (forall lookThrough : bool,
          gpc Examples.one "one" false lookThrough
          = [mkChain [] Examples.one "one"]) ->
      parseWrapper gpc hostname ["one"%string] ["two"; "one"]%string
        Examples.one
      = Js.Returns (VObj [], [Hit]))
  /\ (let w := mkWindow "https://example.org/" "session=1" in
      let m := trustedClickElem string Examples.literal Examples.contains w
                 "#accept" None (Some "example"%string) in
      let later := TrustedClickElem.run m
                     [Mutation (Examples.just "#accept" 1)] in
      Examples.contains (Examples.literal "example") (cookie w) = false
      /\ observing m = true
      /\ timer m = Some OBSERVER_TIMEOUT
      /\ clicked later = [("#accept"%string, 1)]
      /\ hits later = 1).
Proof.
  split.
  - intros gpc hostname b Htwo Hone.
    unfold parseWrapper, isPruningNeeded. simpl.
    rewrite Htwo. simpl. unfold checkPath.
    change (hasWildcard "one") with false.
    rewrite (Hone false). simpl.
    unfold prune. simpl. rewrite (Hone true). reflexivity.
  - repeat split.
Qed.

Lemma unmet_precondition_still_acts_witness :
  parseWrapper resolver "example.org" ["one"%string] ["two"; "one"]%string
    Examples.one
  = Js.Returns (VObj [], [Hit]).
Proof.
  apply (proj1 unmet_precondition_still_acts resolver "example.org" true).
  - reflexivity.
  - intros []; reflexivity.
Defined.

End TrustedClickElemFacts.

(* ================================================================== *)
(** * remove-attr: when [rmattr] runs and when it reports *)
(* ================================================================== *)

Section RemoveAttrFacts.

Import RemoveAttr.

Lemma strip_removed (attrs : list string) (acc : document * bool) (n : nat) :
  snd (strip attrs acc n) = snd acc || nonempty attrs.
Proof.
  unfold strip. revert acc. induction attrs as [|a attrs IH]; intros acc.
  - simpl. now rewrite orb_false_r.
  - simpl fold_left. rewrite IH. simpl. now rewrite orb_true_r.
Qed.

Lemma fold_strip_removed (attrs : list string) (nodes : list nat)
    (acc : document * bool) :
  snd (fold_left (strip attrs) nodes acc)
  = snd acc || (nonempty attrs && nonempty nodes).
Proof.
  revert acc. induction nodes as [|n nodes IH]; intros acc.
  - simpl. now rewrite andb_false_r, orb_false_r.
  - simpl fold_left. rewrite IH, strip_removed.
    destruct (snd acc), (nonempty attrs), (nonempty nodes); reflexivity.
Qed.

(** C10.  A run of [rmattr] calls [hit] exactly when the attribute list is
    not empty and the selector matched a node of the document as it is then;
    the attributes the matched nodes carry play no part, and a selector that
    matches nothing or does not parse gives no [hit]. *)
Theorem rmattr_hit_iff_attrs_and_nodes
    (querySelectorAll : document -> string -> Js.outcome (list nat))
    (attrs : list string) (selector : string) (p : page) :
  let matched :=
    match querySelectorAll (dom p) selector with
    | Js.Returns found => found
    | Js.Throws _ => []
    end in
  hits (rmattr querySelectorAll attrs selector p)
  = if nonempty attrs && nonempty matched then S (hits p) else hits p.
Proof.
  unfold rmattr.
  destruct (querySelectorAll (dom p) selector) as [found|e]; simpl.
  - pose proof (fold_strip_removed attrs found (dom p, false)) as R.
    destruct (fold_left (strip attrs) found (dom p, false)) as [d removed].
    simpl in *. now rewrite R.
  - now rewrite andb_false_r.
Qed.

Lemma dispatch_settled
    (querySelectorAll : document -> string -> Js.outcome (list nat))
    (attrs : list string) (selector : string) (hasFlag : flag -> bool)
    (p : page) (e : event) :
  settled p ->
  let q := dispatch querySelectorAll attrs selector hasFlag p e in
  settled q /\ rmattrRuns q = rmattrRuns p /\ hits q = hits p.
Proof.
  intros [H1 [H2 H3]]. unfold dispatch.
  destruct e; rewrite ?H1, ?H2, ?H3; simpl; repeat split; assumption.
Qed.

Lemma dispatch_all_settled
    (querySelectorAll : document -> string -> Js.outcome (list nat))
    (attrs : list string) (selector : string) (hasFlag : flag -> bool)
    (events : list event) (p : page) :
  settled p ->
  let q := dispatch_all querySelectorAll attrs selector hasFlag p events in
  settled q /\ rmattrRuns q = rmattrRuns p /\ hits q = hits p.
Proof.
  revert p. induction events as [|e events IH]; intros p Q.
  - simpl. auto.
  - destruct (dispatch_settled querySelectorAll attrs selector hasFlag p e Q)
      as [Q' [R H]].
    destruct (IH _ Q') as [Q'' [R' H']].
    unfold dispatch_all in *. simpl. rewrite <- R, <- H. auto.
Qed.

(** The deferred half of the policy is as documented: when [run] waits
    for the load event and the [stay] flag is not set, [rmattr] runs once,
    at the first load event, and never again. *)
Lemma complete_deferred_runs_at_load
    (querySelectorAll : document -> string -> Js.outcome (list nat))
    (attrs : list string) (selector : string) (hasFlag : flag -> bool)
    (events : list event) (p : page) :
  hasFlag STAY = false ->
  onDOMContentLoaded p = [] -> observers p = [] -> onLoad p = [Run] ->
  rmattrRuns (dispatch_all querySelectorAll attrs selector hasFlag p events)
  = rmattrRuns p + (if existsb is_load events then 1 else 0).
Proof.
  intros Hstay. revert p. induction events as [|e events IH]; intros p D O L.
  - simpl. lia.
  - unfold dispatch_all in *. simpl fold_left.
    set (q := dispatch querySelectorAll attrs selector hasFlag p e).
    destruct e as [| |d only]; simpl existsb.
    + assert (Q : q = mkPage (dom p) Interactive [] (onLoad p) (observers p)
                        (rmattrRuns p) (hits p) (console p))
        by (unfold q, dispatch; now rewrite D).
      rewrite IH; rewrite Q; auto.
    + assert (Q : settled q /\ rmattrRuns q = S (rmattrRuns p)).
      { unfold q, dispatch. rewrite L. simpl. unfold run. rewrite Hstay.
        simpl. unfold rmattr. simpl.
        destruct (querySelectorAll (dom p) selector) as [found|err].
        - destruct (fold_left (strip attrs) found (dom p, false)).
          simpl. repeat split; auto.
        - simpl. repeat split; auto. }
      destruct Q as [Q R].
      destruct (dispatch_all_settled querySelectorAll attrs selector hasFlag
                  events q Q) as [_ [R' _]].
      unfold dispatch_all in R'. rewrite R', R. lia.
    + assert (Q : q = mkPage d (ready p) (onDOMContentLoaded p) (onLoad p)
                        (observers p) (rmattrRuns p) (hits p) (console p))
        by (unfold q, dispatch; now rewrite O).
      rewrite IH; rewrite Q; auto.
Qed.

(** C3: the code at the failing input.  With the flags of [complete] and a
    document that is already complete, [removeAttr] runs nothing and
    registers nothing, so [rmattr] never runs, whatever happens later. *)
Theorem complete_on_loaded_document_never_runs
    (querySelectorAll : document -> string -> Js.outcome (list nat))
    (parseFlags : string -> flag -> bool)
    (attrs selector : option string) (d : document) (events : list event) :
  parseFlags "complete" COMPLETE = true ->
  parseFlags "complete" ASAP = false ->
  parseFlags "complete" STAY = false ->
  removeAttr querySelectorAll parseFlags attrs selector (Some "complete"%string)
    (fresh d Complete) = fresh d Complete
  /\ rmattrRuns (lifetime querySelectorAll parseFlags attrs selector
                   (Some "complete"%string) (fresh d Complete) events) = 0.
Proof.
  intros _ Hasap Hstay.
  assert (E : removeAttr querySelectorAll parseFlags attrs selector
                (Some "complete"%string) (fresh d Complete) = fresh d Complete).
  { unfold removeAttr. destruct attrs as [a|]; [|reflexivity].
    destruct (negb (Js.truthy_string a)); [reflexivity|].
    unfold schedule, applying_or_default. rewrite Hasap, Hstay. reflexivity. }
  split; [exact E|].
  unfold lifetime. rewrite E.
  match goal with
  | |- rmattrRuns (dispatch_all ?q ?a ?s ?f ?p ?es) = 0 =>
      destruct (dispatch_all_settled q a s f es p) as [_ [R _]];
        [repeat split | exact R]
  end.
Qed.

Lemma complete_on_loaded_document_never_runs_witness :
  let d := [[("example"%string, "true"%string)]] in
  rmattrRuns (lifetime Examples.querySelectorAll RemoveAttr.parseFlags
                (Some "example"%string) None (Some "complete"%string)
                (fresh d Complete) [Load; Mutation d false]) = 0.
Proof.
  intros d.
  apply (complete_on_loaded_document_never_runs Examples.querySelectorAll
           RemoveAttr.parseFlags (Some "example"%string) None d
           [Load; Mutation d false]); reflexivity.
Defined.

End RemoveAttrFacts.

(* ================================================================== *)
(** * prevent-requestAnimationFrame: the inverted match *)
(* ================================================================== *)

Section PreventRequestAnimationFrameFacts.

Import PreventRequestAnimationFrame.

(** C9.  With a search that starts with [!], a call whose callback text
    matches the rest of the search goes to the native function with its
    callback and arguments, and a call that does not match is made with
    [noopFunc] after a [hit]; without the [!] it is the other way round. *)
Theorem leading_bang_inverts_match
    (RegExp : Type) (toRegExp : option string -> RegExp)
    (test : RegExp -> string -> bool) (Arg : Type)
    (search : string) (cb : callback) (args : list Arg) :
  let negated := prefix "!" search in
  let rest := toRegExp (Some (Js.slice1 search)) in
  let whole := toRegExp (Some search) in
  let wrapped := rafWrapper RegExp toRegExp test Arg (Some search) cb args in
  (negated = true -> test rest (toString cb) = true ->
   wrapped = (mkNativeCall Arg cb args, []))
  /\ (negated = true -> test rest (toString cb) = false ->
      wrapped = (mkNativeCall Arg noopFunc [], [Hit]))
  /\ (negated = false -> test whole (toString cb) = true ->
      wrapped = (mkNativeCall Arg noopFunc [], [Hit]))
  /\ (negated = false -> test whole (toString cb) = false ->
      wrapped = (mkNativeCall Arg cb args, [])).
Proof.
  unfold rafWrapper, matchRegexp, rawMatch, doNotMatch, shouldLog,
    startsWith, INVERT_MARKER.
  cbv zeta. repeat split; intros N M; rewrite N; simpl; rewrite M; reflexivity.
Qed.

Lemma leading_bang_inverts_match_witness :
  let kept := PageCallback "function changeFirst() { window.check = 1; }" in
  let defused := PageCallback "function changeSecond() { window.second = 1; }" in
  rafWrapper string Examples.literal_opt Examples.contains nat
    (Some "!check"%string) kept [7] = (mkNativeCall nat kept [7], [])
  /\ rafWrapper string Examples.literal_opt Examples.contains nat
       (Some "!check"%string) defused [7] = (mkNativeCall nat noopFunc [], [Hit])
  /\ rafWrapper string Examples.literal_opt Examples.contains nat
       (Some "check"%string) kept [7] = (mkNativeCall nat noopFunc [], [Hit])
  /\ rafWrapper string Examples.literal_opt Examples.contains nat
       (Some "check"%string) defused [7] = (mkNativeCall nat defused [7], []).
Proof.
  intros kept defused. split; [|split; [|split]].
  - apply (proj1 (leading_bang_inverts_match string Examples.literal_opt
                    Examples.contains nat "!check" kept [7])); reflexivity.
  - apply (proj1 (proj2 (leading_bang_inverts_match string Examples.literal_opt
                           Examples.contains nat "!check" defused [7])));
      reflexivity.
  - apply (proj1 (proj2 (proj2 (leading_bang_inverts_match string
                                  Examples.literal_opt Examples.contains nat
                                  "check" kept [7])))); reflexivity.
  - apply (proj2 (proj2 (proj2 (leading_bang_inverts_match string
                                  Examples.literal_opt Examples.contains nat
                                  "check" defused [7])))); reflexivity.
Defined.

End PreventRequestAnimationFrameFacts.

(* ================================================================== *)
(** * json-prune: argument lists and the verdict of one path *)
(* ================================================================== *)

Section JsonPruneMore.

Lemma splitSpaces_from_nonempty (inRun : bool) (s : string) :
  splitSpaces_from inRun s <> [].
Proof.
  revert inRun. induction s as [|c s IH]; intros inRun; simpl.
  - discriminate.
  - destruct (Ascii.eqb c " ").
    + destruct inRun; [apply IH | discriminate].
    + destruct (splitSpaces_from false s); discriminate.
Qed.

Lemma splitSpaces_from_spaceless (inRun : bool) (p : string) :
  spaceless p = true -> splitSpaces_from inRun p = [p].
Proof.
  revert inRun. induction p as [|c p IH]; intros inRun H; [reflexivity|].
  simpl in *. apply andb_true_iff in H. destruct H as [Hc Hp].
  apply negb_true_iff in Hc. rewrite Hc. now rewrite (IH false Hp).
Qed.

Lemma splitSpaces_from_first (inRun : bool) (p q : string) :
  spaceless p = true -> p <> EmptyString ->
  splitSpaces_from inRun (p ++ " " ++ q)
  = p :: splitSpaces_from true q.
Proof.
  revert inRun. induction p as [|c p IH]; intros inRun H NE; [congruence|].
  simpl in H. apply andb_true_iff in H. destruct H as [Hc Hp].
  apply negb_true_iff in Hc.
  change (String c p ++ " " ++ q)%string with (String c (p ++ " " ++ q)).
  cbn [splitSpaces_from]. rewrite Hc.
  destruct p as [|c' p].
  - reflexivity.
  - rewrite (IH false Hp) by discriminate. reflexivity.
Qed.

Lemma splitSpaces_from_join (inRun : bool) (paths : list string) :
  paths <> [] ->
  Forall (fun p => p <> EmptyString /\ spaceless p = true) paths ->
  splitSpaces_from inRun (Js.join " " paths) = paths.
Proof.
  intros NE F. revert inRun.
  induction paths as [|p paths IH]; intros inRun; [congruence|].
  inversion F as [|? ? [Hne Hs] F']; subst.
  destruct paths as [|p' paths].
  - simpl. now apply splitSpaces_from_spaceless.
  - rewrite join_cons by discriminate.
    rewrite splitSpaces_from_first by assumption.
    rewrite IH; [reflexivity | discriminate | assumption].
Qed.

(** X1.  A list of paths written with one space between them is read back
    as it is: for paths that are not empty and hold no space, joining them
    with a space and reading the argument gives the list again. *)
Theorem pathsOf_join (paths : list string) :
  paths <> [] ->
  Forall (fun p => p <> EmptyString /\ spaceless p = true) paths ->
  pathsOf (Some (Js.join " " paths)) = paths.
Proof.
  intros NE F. unfold pathsOf, splitSpaces.
  rewrite splitSpaces_from_join by assumption.
  destruct (String.eqb (Js.join " " paths) EmptyString) eqn:E; [|reflexivity].
  apply String.eqb_eq in E.
  destruct paths as [|p paths]; [congruence|].
  inversion F as [|? ? [Hne _] _]; subst.
  destruct (join_head " " p paths) as [rest Hr]. rewrite Hr in E.
  destruct p; [congruence | discriminate E].
Qed.

Lemma pathsOf_join_witness :
  pathsOf (Some "ad.*.src content.preroll"%string)
  = ["ad.*.src"; "content.preroll"]%string.
Proof.
  apply (pathsOf_join ["ad.*.src"; "content.preroll"]%string).
  - discriminate.
  - repeat constructor; discriminate.
Defined.

Lemma pathsOf_nil (arg : option string) :
  pathsOf arg = [] <-> arg = None \/ arg = Some EmptyString.
Proof.
  unfold pathsOf. destruct arg as [s|].
  - destruct (String.eqb s EmptyString) eqn:E.
    + apply String.eqb_eq in E. subst. split; auto.
    + apply String.eqb_neq in E. split.
      * intros H. now apply splitSpaces_from_nonempty in H.
      * intros [H|H]; [discriminate | congruence].
  - split; auto.
Qed.

(** X2.  The wrapper installed by [jsonPrune] is in logging mode exactly
    when [propsToRemove] is omitted or empty: then every parse returns the
    native value with one [log] and no [hit], whatever the required paths
    are; otherwise it never logs, and what it returns is the native value
    with no [hit], or a pruned value with one [hit]. *)
Theorem jsonPrune_logs_iff_nothing_to_remove
    (gpc : value -> string -> bool -> bool -> list Chain)
    (hostname : string) (propsToRemove requiredInitialProps : option string)
    (r : value) :
  (propsToRemove = None \/ propsToRemove = Some EmptyString ->
   jsonPrune gpc hostname propsToRemove requiredInitialProps r
   = Js.Returns (r, [Log hostname r]))
  /\ (propsToRemove <> None -> propsToRemove <> Some EmptyString ->
      forall v effects,
        jsonPrune gpc hostname propsToRemove requiredInitialProps r
        = Js.Returns (v, effects) ->
        (v = r /\ effects = [])
        \/ (v = prune gpc (pathsOf propsToRemove) r /\ effects = [Hit])).
Proof.
  unfold jsonPrune, parseWrapper. split.
  - intros H. apply pathsOf_nil in H. now rewrite H.
  - intros N1 N2 v effects.
    destruct (pathsOf propsToRemove) as [|p ps] eqn:E.
    + apply pathsOf_nil in E. tauto.
    + destruct (isPruningNeeded gpc (pathsOf requiredInitialProps) r)
        as [needed|e]; simpl; [|discriminate].
      destruct (is_false needed); intros H; inversion H; auto.
Qed.

Lemma jsonPrune_logs_iff_nothing_to_remove_witness :
  jsonPrune resolver "example.org" None (Some "one"%string) Examples.one
  = Js.Returns (Examples.one, [Log "example.org" Examples.one])
  /\ ((VObj [], [Hit]) = (Examples.one, [])
      \/ (VObj [], [Hit])
         = (prune resolver (pathsOf (Some "one"%string)) Examples.one, [Hit])).
Proof.
  split.
  - apply (proj1 (jsonPrune_logs_iff_nothing_to_remove resolver "example.org"
                    None (Some "one"%string) Examples.one)).
    left. reflexivity.
  - destruct (proj2 (jsonPrune_logs_iff_nothing_to_remove resolver
                       "example.org" (Some "one"%string) None Examples.one)
                ltac:(discriminate) ltac:(discriminate)
                (VObj []) [Hit] eq_refl) as [[V E]|[V E]].
    + left. now rewrite V, E.
    + right. now rewrite <- V.
Defined.

(** X3.  When [isPruningNeeded] returns for a list of required paths, it
    returns what it returns for the last path of the list alone. *)
Theorem isPruningNeeded_last_path_alone
    (gpc : value -> string -> bool -> bool -> list Chain)
    (root : value) (paths : list string) (requiredPath : string) (v : value) :
  isPruningNeeded gpc (paths ++ [requiredPath]) root = Js.Returns v ->
  isPruningNeeded gpc [requiredPath] root = Js.Returns v.
Proof.
  unfold isPruningNeeded. destruct (negb (truthy root)); [auto|].
  intros H. apply requiredLoop_last in H. destruct H as [b [Hb ->]].
  simpl. now rewrite Hb.
Qed.

Lemma isPruningNeeded_last_path_alone_witness :
  isPruningNeeded resolver ["one"%string] Examples.one
  = Js.Returns (VBool true).
Proof.
  apply (isPruningNeeded_last_path_alone resolver Examples.one
           ["absent.*.key"; "other"]%string "one" (VBool true)).
  reflexivity.
Defined.

Lemma checkDetails_verdict (wild : bool) (name : string)
    (details : list Chain) (shouldProcess : bool) :
  (forall d, In d details -> nullish (base d) = false) ->
  checkDetails wild name details shouldProcess
  = Js.Returns (if wild
                then shouldProcess || existsb (defined_at name) details
                else shouldProcess && forallb (defined_at name) details).
Proof.
  revert shouldProcess.
  induction details as [|d details IH]; intros sp H.
  - simpl. destruct wild; [now rewrite orb_false_r | now rewrite andb_true_r].
  - assert (Hd : nullish (base d) = false) by (apply H; now left).
    assert (G : get_prop (base d) name
                = Js.Returns (match get_own (base d) name with
                              | Some x => x
                              | None => VUndefined
                              end))
      by (destruct (base d); try reflexivity; discriminate Hd).
    assert (D : defined_at name d
                = negb (is_undefined (match get_own (base d) name with
                                      | Some x => x
                                      | None => VUndefined
                                      end)))
      by (unfold defined_at; now destruct (get_own (base d) name)).
    simpl checkDetails. rewrite G. simpl Js.bind.
    rewrite IH by (intros d' Hin; apply H; now right).
    simpl existsb. simpl forallb. rewrite D.
    set (here := negb (is_undefined _)).
    destruct wild, here, sp; reflexivity.
Qed.

(** X4.  The verdict of one required path, when every owner found is a
    parsed object and the last segment is not a name that objects inherit
    ([toString], [constructor] and the like): with a wildcard the path is
    satisfied when some location found has the last segment as a property,
    without a wildcard when every location found has it; so with nothing
    found a wildcard path is not satisfied and a path without wildcard is. *)
Theorem checkPath_any_or_all
    (gpc : value -> string -> bool -> bool -> list Chain)
    (root : value) (requiredPath : string) :
  let details := gpc root requiredPath false (hasWildcard requiredPath) in
  (forall d, In d details ->
             plain_owner (nestedPropName requiredPath) d = true) ->
  checkPath gpc root requiredPath
  = Js.Returns
      (if hasWildcard requiredPath
       then existsb (defined_at (nestedPropName requiredPath)) details
       else forallb (defined_at (nestedPropName requiredPath)) details).
Proof.
  intros details H. unfold checkPath. fold details.
  rewrite checkDetails_verdict.
  - now destruct (hasWildcard requiredPath).
  - intros d Hin. specialize (H d Hin). unfold plain_owner in H.
    now destruct (base d).
Qed.

Lemma checkPath_any_or_all_witness :
  checkPath resolver
    (VObj [("items"%string, VArr [VObj [("id"%string, VNum 1)]; VObj []])])
    "items.*.id"
  = Js.Returns true.
Proof.
  apply (checkPath_any_or_all resolver
           (VObj [("items"%string, VArr [VObj [("id"%string, VNum 1)]; VObj []])])
           "items.*.id").
  intros d [<-|[]]. reflexivity.
Defined.

End JsonPruneMore.

(* ================================================================== *)
(** * trusted-click-elem: bounds on clicks and on [hit] *)
(* ================================================================== *)

Section TrustedClickElemMore.

Import TrustedClickElem.

Lemma step_disconnected (m : machine) (e : event) :
  observing m = false ->
  observing (step m e) = false
  /\ clicked (step m e) = clicked m
  /\ hits (step m e) = hits m.
Proof.
  intros H. destruct e as [doc|]; unfold step.
  - rewrite H. auto.
  - destruct (timer m); simpl; auto.
Qed.

Lemma run_disconnected (events : list event) (m : machine) :
  observing m = false ->
  observing (run m events) = false
  /\ clicked (run m events) = clicked m
  /\ hits (run m events) = hits m.
Proof.
  revert m. induction events as [|e events IH]; intros m H; [auto|].
  destruct (step_disconnected m e H) as [O [C N]].
  destruct (IH _ O) as [O' [C' N']].
  unfold run in *. simpl. rewrite <- C, <- N. auto.
Qed.

Lemma step_hit_means_disconnected (m : machine) (e : event) :
  hit_means_disconnected m -> hit_means_disconnected (step m e).
Proof.
  intros Inv. destruct (observing m) eqn:O.
  - destruct Inv as [H0|[F _]]; [|congruence].
    destruct e as [doc|]; unfold step.
    + rewrite O. unfold clickHandler.
      destruct (doc (selector_text (currentSelector m))) as [target| |];
        simpl; try (left; exact H0).
      destruct (shift (selectorsQueue m)) as [next rest].
      destruct (negb (Js.truthy_arg next)); simpl.
      * right. split; [reflexivity | now rewrite H0].
      * left. exact H0.
    + destruct (timer m); simpl; left; exact H0.
  - destruct (step_disconnected m e O) as [O' [_ N]].
    destruct Inv as [H0|[_ H1]]; [left | right]; rewrite ?N; auto.
Qed.

Lemma run_hit_means_disconnected (events : list event) (m : machine) :
  hit_means_disconnected m -> hit_means_disconnected (run m events).
Proof.
  revert m. induction events as [|e events IH]; intros m Inv; [exact Inv|].
  unfold run. simpl. apply IH. now apply step_hit_means_disconnected.
Qed.

Lemma started_or_idle
    (RegExp : Type) (toRegExp : string -> RegExp)
    (test : RegExp -> string -> bool)
    (w : window) (selectors : string) (hrefMatch cookieMatch : option string) :
  let m := trustedClickElem RegExp toRegExp test w selectors
             hrefMatch cookieMatch in
  m = idle
  \/ exists first rest,
       targets selectors = first :: rest
       /\ m = mkMachine rest (Some first) true (Some OBSERVER_TIMEOUT) [] 0.
Proof.
  unfold trustedClickElem.
  destruct (negb (hrefMatched w hrefMatch)
            || negb (cookieMatched RegExp toRegExp test w cookieMatch));
    [left; reflexivity|].
  right. destruct (targets selectors) as [|first rest] eqn:T.
  - unfold targets in T. apply map_eq_nil in T.
    now apply split_nonempty in T.
  - exists first, rest. split; reflexivity.
Qed.

(** X5.  For every selector list and every sequence of events, [hit] is
    called at most once, and once it has been called the observer is
    disconnected: whatever comes later, nothing more is clicked and [hit] is
    not called again. *)
Theorem hit_at_most_once_then_nothing
    (RegExp : Type) (toRegExp : string -> RegExp)
    (test : RegExp -> string -> bool)
    (w : window) (selectors : string) (hrefMatch cookieMatch : option string)
    (before later : list event) :
  let m := TrustedClickElem.run
             (trustedClickElem RegExp toRegExp test w selectors
                hrefMatch cookieMatch) before in
  hits m <= 1
  /\ (hits m = 1 ->
      observing m = false
      /\ clicked (TrustedClickElem.run m later) = clicked m
      /\ hits (TrustedClickElem.run m later) = 1).
Proof.
  intros m.
  assert (Inv : hit_means_disconnected m).
  { apply run_hit_means_disconnected. left.
    destruct (started_or_idle RegExp toRegExp test w selectors
                hrefMatch cookieMatch) as [E|[first [rest [_ E]]]];
      now rewrite E. }
  destruct Inv as [H0|[O H1]].
  - split; [lia|]. intros H. congruence.
  - split; [lia|]. intros _.
    destruct (run_disconnected later m O) as [_ [C N]].
    split; [exact O|]. split; [exact C | congruence].
Qed.

Lemma hit_at_most_once_then_nothing_witness :
  let m := TrustedClickElem.run
             (trustedClickElem string Examples.literal Examples.contains
                (mkWindow "https://example.org/" EmptyString) "#a"
                None None)
             [Mutation (Examples.just "#a" 1)] in
  clicked (TrustedClickElem.run m [Mutation (Examples.just "#a" 1); Timeout])
  = clicked m.
Proof.
  intros m.
  apply (proj2 (hit_at_most_once_then_nothing string Examples.literal
                  Examples.contains
                  (mkWindow "https://example.org/" EmptyString) "#a"
                  None None [Mutation (Examples.just "#a" 1)]
                  [Mutation (Examples.just "#a" 1); Timeout])).
  reflexivity.
Defined.

Lemma step_clicks_one (m : machine) (e : event) :
  length (clicked (step m e))
  <= length (clicked m) + (if is_mutation e then 1 else 0).
Proof.
  destruct e as [doc|].
  - pose proof (click_needs_target m doc) as H. cbn [is_mutation].
    destruct (doc (selector_text (currentSelector m))).
    + rewrite H. destruct (observing m); [|lia].
      rewrite length_app. simpl. lia.
    + rewrite H. lia.
    + rewrite H. lia.
  - unfold step. destruct (timer m); simpl; lia.
Qed.

Lemma run_clicks_batches (events : list event) (m : machine) :
  length (clicked (run m events))
  <= length (clicked m) + length (filter is_mutation events).
Proof.
  revert m. induction events as [|e events IH]; intros m.
  - simpl. lia.
  - unfold run in *. simpl fold_left.
    pose proof (IH (step m e)) as H1.
    pose proof (step_clicks_one m e) as H2.
    simpl filter. destruct (is_mutation e); simpl length; lia.
Qed.

Lemma step_within_targets (n : nat) (m : machine) (e : event) :
  within_targets n m -> within_targets n (step m e).
Proof.
  intros [[O L]|[O L]].
  - destruct e as [doc|]; unfold step.
    + rewrite O. unfold clickHandler.
      destruct (doc (selector_text (currentSelector m))) as [target| |];
        simpl; try (left; split; assumption).
      destruct (selectorsQueue m) as [|c queue] eqn:Q; simpl.
      * right. simpl. split; [reflexivity|].
        rewrite length_app. simpl in *. lia.
      * destruct (negb (Js.truthy_string c)).
        -- right. simpl. split; [reflexivity|].
           rewrite length_app. simpl in *. lia.
        -- left. simpl. split; [exact O|].
           rewrite length_app. simpl in *. lia.
    + destruct (timer m); simpl; left; split; assumption.
  - destruct (step_disconnected m e O) as [O' [C _]].
    right. split; [exact O' | now rewrite C].
Qed.

Lemma run_within_targets (n : nat) (events : list event) (m : machine) :
  within_targets n m -> within_targets n (run m events).
Proof.
  revert m. induction events as [|e events IH]; intros m Inv; [exact Inv|].
  unfold run. simpl. apply IH. now apply step_within_targets.
Qed.

(** X6.  The clicks made are never more than the mutation batches
    delivered and never more than the selectors of the list: the invocation
    itself clicks nothing, a batch clicks one element at most, and the
    timer clicks nothing. *)
Theorem clicks_bounded_by_batches_and_targets
    (RegExp : Type) (toRegExp : string -> RegExp)
    (test : RegExp -> string -> bool)
    (w : window) (selectors : string) (hrefMatch cookieMatch : option string)
    (events : list event) :
  let m := TrustedClickElem.run
             (trustedClickElem RegExp toRegExp test w selectors
                hrefMatch cookieMatch) events in
  length (clicked m) <= length (filter is_mutation events)
  /\ length (clicked m) <= length (targets selectors).
Proof.
  intros m. split.
  - pose proof (run_clicks_batches events
                  (trustedClickElem RegExp toRegExp test w selectors
                     hrefMatch cookieMatch)) as H.
    fold m in H.
    destruct (started_or_idle RegExp toRegExp test w selectors
                hrefMatch cookieMatch) as [E|[first [rest [_ E]]]];
      rewrite E in H; simpl in H; exact H.
  - assert (Inv : within_targets (length (targets selectors)) m).
    { apply run_within_targets.
      destruct (started_or_idle RegExp toRegExp test w selectors
                  hrefMatch cookieMatch) as [E|[first [rest [T E]]]];
        rewrite E.
      - right. simpl. split; [reflexivity | lia].
      - left. rewrite T. simpl. split; [reflexivity | lia]. }
    destruct Inv as [[_ L]|[_ L]]; lia.
Qed.

(** X7.  The address precondition holds exactly when [hrefMatch] is
    omitted or occurs in the address of the page (the empty string occurs in
    every address). *)
Theorem hrefMatched_iff_occurs (w : window) (hrefMatch : option string) :
  hrefMatched w hrefMatch = true <->
  match hrefMatch with
  | Some h => occurs h (href w)
  | None => True
  end.
Proof.
  unfold hrefMatched. destruct hrefMatch as [h|]; [|tauto].
  unfold Js.truthy_string. destruct (String.eqb h EmptyString) eqn:E; simpl.
  - apply String.eqb_eq in E. subst h. split; [intros _ | reflexivity].
    exists EmptyString, (href w). reflexivity.
  - rewrite <- indexOf_found, Z.gtb_ltb, Z.ltb_lt, negb_true_iff, Z.eqb_neq.
    pose proof (indexOf_lower_bound (href w) h). lia.
Qed.

End TrustedClickElemMore.

(* ================================================================== *)
(** * remove-attr: what [rmattr] changes and how often it runs *)
(* ================================================================== *)

Section RemoveAttrMore.

Import RemoveAttr.

Lemma update_nth_error (i : nat) (f : node -> node) (d : document) (j : nat) :
  nth_error (update i f d) j
  = if Nat.eqb i j then option_map f (nth_error d j) else nth_error d j.
Proof.
  revert i j. induction d as [|n d IH]; intros i j.
  - destruct i, j; simpl; try reflexivity; now destruct (Nat.eqb i j).
  - destruct i as [|i], j as [|j]; simpl; try reflexivity. apply IH.
Qed.

Lemma update_length (i : nat) (f : node -> node) (d : document) :
  length (update i f d) = length d.
Proof.
  revert i. induction d as [|n d IH]; intros i; [now destruct i|].
  destruct i; simpl; [reflexivity | now rewrite IH].
Qed.

Lemma removeAttribute_without (attr : string) (attrs : list string) (n : node) :
  without attrs (removeAttribute attr n) = without (attr :: attrs) n.
Proof.
  unfold without, removeAttribute.
  change (map lowercase (attr :: attrs))
    with (lowercase attr :: map lowercase attrs).
  set (name := lowercase attr). set (names := map lowercase attrs).
  induction n as [|a n IH]; [reflexivity|]. cbn [filter existsb].
  destruct (String.eqb (fst a) name); cbn [negb orb filter]; [exact IH|].
  destruct (existsb (String.eqb (fst a)) names); cbn [negb]; [exact IH|].
  now rewrite IH.
Qed.

Lemma without_nil (n : node) : without [] n = n.
Proof.
  unfold without. induction n as [|a n IH]; [reflexivity|].
  simpl. f_equal. exact IH.
Qed.

Lemma without_twice (attrs : list string) (n : node) :
  without attrs (without attrs n) = without attrs n.
Proof.
  unfold without. set (names := map lowercase attrs).
  induction n as [|a n IH]; [reflexivity|]. cbn [filter].
  destruct (existsb (String.eqb (fst a)) names) eqn:E; cbn [negb filter];
    [exact IH|].
  rewrite E. cbn [negb]. now rewrite IH.
Qed.

Lemma strip_node (attrs : list string) (acc : document * bool) (n j : nat) :
  length (fst (strip attrs acc n)) = length (fst acc)
  /\ nth_error (fst (strip attrs acc n)) j
     = if Nat.eqb n j then option_map (without attrs) (nth_error (fst acc) j)
       else nth_error (fst acc) j.
Proof.
  unfold strip. revert acc. induction attrs as [|a attrs IH]; intros acc.
  - simpl. split; [reflexivity|].
    destruct (Nat.eqb n j); [|reflexivity].
    destruct (nth_error (fst acc) j); simpl; [now rewrite without_nil | reflexivity].
  - simpl fold_left. destruct (IH (update n (removeAttribute a) (fst acc), true))
      as [L N].
    split.
    + rewrite L. simpl. apply update_length.
    + rewrite N. simpl fst. rewrite update_nth_error.
      destruct (Nat.eqb n j); [|reflexivity].
      destruct (nth_error (fst acc) j); simpl; [|reflexivity].
      now rewrite removeAttribute_without.
Qed.

Lemma fold_strip_nodes (attrs : list string) (found : list nat)
    (acc : document * bool) (j : nat) :
  length (fst (fold_left (strip attrs) found acc)) = length (fst acc)
  /\ nth_error (fst (fold_left (strip attrs) found acc)) j
     = if existsb (Nat.eqb j) found
       then option_map (without attrs) (nth_error (fst acc) j)
       else nth_error (fst acc) j.
Proof.
  revert acc. induction found as [|n found IH]; intros acc.
  - simpl. auto.
  - simpl fold_left. destruct (IH (strip attrs acc n)) as [L N].
    destruct (strip_node attrs acc n j) as [L' N'].
    split; [congruence|].
    rewrite N, N'. simpl existsb. rewrite (Nat.eqb_sym j n).
    destruct (Nat.eqb n j), (existsb (Nat.eqb j) found); simpl; try reflexivity.
    destruct (nth_error (fst acc) j); simpl; [|reflexivity].
    now rewrite without_twice.
Qed.

(** X8.  A run of [rmattr] removes from every node the selector matched
    the attributes named by the list, each name taken in lower case as
    [removeAttribute] does, all of them, and changes nothing else: the
    other attributes of those nodes, the other nodes and the number of nodes
    stay as they are.  With a selector that does not parse the document is
    left alone and one line goes to the console. *)
Theorem rmattr_strips_matched_nodes_only
    (querySelectorAll : document -> string -> Js.outcome (list nat))
    (attrs : list string) (selector : string) (p : page) :
  let after := rmattr querySelectorAll attrs selector p in
  match querySelectorAll (dom p) selector with
  | Js.Returns found =>
      length (dom after) = length (dom p)
      /\ (forall i,
            nth_error (dom after) i
            = if existsb (Nat.eqb i) found
              then option_map (without attrs) (nth_error (dom p) i)
              else nth_error (dom p) i)
      /\ console after = console p
  | Js.Throws _ =>
      dom after = dom p
      /\ hits after = hits p
      /\ console after
         = console p
           ++ [("Invalid remove-attr selector arg: '" ++ selector ++ "'")%string]
  end.
Proof.
  unfold rmattr.
  destruct (querySelectorAll (dom p) selector) as [found|e].
  - pose proof (fun j => fold_strip_nodes attrs found (dom p, false) j) as F.
    destruct (fold_left (strip attrs) found (dom p, false)) as [d removed].
    simpl in *. split; [apply (F 0)|]. split; [|reflexivity].
    intros i. apply (F i).
  - simpl. auto.
Qed.

Lemma rmattr_frame
    (querySelectorAll : document -> string -> Js.outcome (list nat))
    (attrs : list string) (selector : string) (p : page) :
  let q := rmattr querySelectorAll attrs selector p in
  ready q = ready p
  /\ onDOMContentLoaded q = onDOMContentLoaded p
  /\ onLoad q = onLoad p
  /\ observers q = observers p
  /\ rmattrRuns q = S (rmattrRuns p).
Proof.
  unfold rmattr.
  destruct (querySelectorAll (dom p) selector) as [found|e];
    [destruct (fold_left (strip attrs) found (dom p, false)) | idtac];
    simpl; repeat split.
Qed.

(** X9.  When the [stay] flag is set and the run is not deferred to the
    load event, [removeAttr] calls [rmattr] at once and binds it to the
    mutations with attributes observed, whether or not [applying] holds a
    space; so with the [asap] flag set too, on a document that is no longer
    loading, [rmattr] runs twice in the call. *)
Theorem stay_runs_rmattr_at_once
    (querySelectorAll : document -> string -> Js.outcome (list nat))
    (attrs : list string) (selector : string) (hasFlag : flag -> bool)
    (applying : string) (p : page) :
  hasFlag STAY = true ->
  is_complete (ready p) || negb (hasFlag COMPLETE) = true ->
  let q := schedule querySelectorAll attrs selector hasFlag applying p in
  observers q = observers p ++ [(Rmattr, true)]
  /\ onLoad q = onLoad p
  /\ rmattrRuns q
     = rmattrRuns p
       + (if hasFlag ASAP && negb (is_loading (ready p)) then 2 else 1).
Proof.
  intros Hstay Hnow. unfold schedule.
  set (p1 := if hasFlag ASAP
             then if is_loading (ready p)
                  then addDOMContentLoaded Rmattr p
                  else rmattr querySelectorAll attrs selector p
             else p).
  assert (P1 : ready p1 = ready p /\ onLoad p1 = onLoad p
               /\ observers p1 = observers p
               /\ rmattrRuns p1
                  = rmattrRuns p
                    + (if hasFlag ASAP && negb (is_loading (ready p))
                       then 1 else 0)).
  { unfold p1. destruct (hasFlag ASAP); simpl; [|repeat split; lia].
    destruct (is_loading (ready p)); simpl; [repeat split; lia|].
    destruct (rmattr_frame querySelectorAll attrs selector p)
      as [R [_ [L [O N]]]].
    repeat split; auto. lia. }
  destruct P1 as [R1 [L1 [O1 N1]]].
  assert (G : negb (is_complete (ready p1)) && hasFlag COMPLETE = false).
  { rewrite R1. destruct (is_complete (ready p)), (hasFlag COMPLETE);
      simpl in *; congruence. }
  rewrite G, Hstay. unfold bool_strict_ne_number.
  destruct (rmattr_frame querySelectorAll attrs selector p1)
    as [_ [_ [L [O N]]]].
  simpl. rewrite O, L, N, O1, L1, N1.
  repeat split.
  destruct (hasFlag ASAP && negb (is_loading (ready p))); lia.
Qed.

Lemma stay_runs_rmattr_at_once_witness :
  let d := [[("example"%string, "true"%string)]] in
  rmattrRuns (schedule Examples.querySelectorAll ["example"%string] "[example]"
                (RemoveAttr.parseFlags "asap stay") "asap stay"
                (fresh d Interactive)) = 2.
Proof.
  intros d.
  apply (stay_runs_rmattr_at_once Examples.querySelectorAll
           ["example"%string] "[example]" (RemoveAttr.parseFlags "asap stay")
           "asap stay" (fresh d Interactive)); reflexivity.
Defined.

(** X10.  With the flags of [complete] alone, on a document that is not
    yet complete, [rmattr] runs once, at the first load event, and never
    before or after it. *)
Theorem complete_runs_once_at_load
    (querySelectorAll : document -> string -> Js.outcome (list nat))
    (parseFlags : string -> flag -> bool)
    (attrs : string) (selector : option string)
    (d : document) (state : readyState) (events : list event) :
  Js.truthy_string attrs = true ->
  is_complete state = false ->
  parseFlags "complete" COMPLETE = true ->
  parseFlags "complete" ASAP = false ->
  parseFlags "complete" STAY = false ->
  rmattrRuns (lifetime querySelectorAll parseFlags (Some attrs) selector
                (Some "complete"%string) (fresh d state) events)
  = if existsb is_load events then 1 else 0.
Proof.
  intros Ha Hs Hc Hasap Hstay. unfold lifetime, removeAttr.
  rewrite Ha. simpl negb. cbv iota. unfold schedule, applying_or_default.
  rewrite Hasap, Hc. simpl ready. rewrite Hs. simpl.
  rewrite (complete_deferred_runs_at_load querySelectorAll (attrs_of attrs)
             (selector_of attrs selector) (parseFlags "complete") events
             (addLoad Run (fresh d state)) Hstay);
    reflexivity.
Qed.

Lemma complete_runs_once_at_load_witness :
  let d := [[("example"%string, "true"%string)]] in
  rmattrRuns (lifetime Examples.querySelectorAll RemoveAttr.parseFlags
                (Some "example"%string) None (Some "complete"%string)
                (fresh d Loading)
                [DOMContentLoaded; Mutation d false; Load; Load]) = 1.
Proof.
  intros d.
  apply (complete_runs_once_at_load Examples.querySelectorAll
           RemoveAttr.parseFlags "example" None d Loading
           [DOMContentLoaded; Mutation d false; Load; Load]); reflexivity.
Defined.

Lemma asap_deferred_runs_at_domContentLoaded
    (querySelectorAll : document -> string -> Js.outcome (list nat))
    (attrs : list string) (selector : string) (hasFlag : flag -> bool)
    (events : list event) (p : page) :
  onDOMContentLoaded p = [Rmattr] -> onLoad p = [] -> observers p = [] ->
  rmattrRuns (dispatch_all querySelectorAll attrs selector hasFlag p events)
  = rmattrRuns p + (if existsb is_domContentLoaded events then 1 else 0).
Proof.
  revert p. induction events as [|e events IH]; intros p D L O.
  - simpl. lia.
  - unfold dispatch_all in *. simpl fold_left.
    set (q := dispatch querySelectorAll attrs selector hasFlag p e).
    destruct e as [| |d only]; simpl existsb.
    + assert (Q : settled q /\ rmattrRuns q = S (rmattrRuns p)).
      { unfold q, dispatch. rewrite D. simpl.
        destruct (rmattr_frame querySelectorAll attrs selector
                    (mkPage (dom p) Interactive [] (onLoad p) (observers p)
                            (rmattrRuns p) (hits p) (console p)))
          as [_ [D' [L' [O' N']]]].
        simpl in *. repeat split; congruence. }
      destruct Q as [Q R].
      destruct (dispatch_all_settled querySelectorAll attrs selector hasFlag
                  events q Q) as [_ [R' _]].
      unfold dispatch_all in R'. rewrite R', R. lia.
    + assert (Q : q = mkPage (dom p) Complete (onDOMContentLoaded p) []
                        (observers p) (rmattrRuns p) (hits p) (console p))
        by (unfold q, dispatch; now rewrite L).
      rewrite IH; rewrite Q; auto.
    + assert (Q : q = mkPage d (ready p) (onDOMContentLoaded p) (onLoad p)
                        (observers p) (rmattrRuns p) (hits p) (console p))
        by (unfold q, dispatch; now rewrite O).
      rewrite IH; rewrite Q; auto.
Qed.

(** X11.  With the flags of [asap] alone [rmattr] runs once: in the call
    itself when the document is no longer loading, and otherwise at the
    first [DOMContentLoaded] event; no later event runs it again. *)
Theorem asap_runs_once
    (querySelectorAll : document -> string -> Js.outcome (list nat))
    (parseFlags : string -> flag -> bool)
    (attrs : string) (selector : option string)
    (d : document) (state : readyState) (events : list event) :
  Js.truthy_string attrs = true ->
  parseFlags "asap" ASAP = true ->
  parseFlags "asap" COMPLETE = false ->
  parseFlags "asap" STAY = false ->
  rmattrRuns (lifetime querySelectorAll parseFlags (Some attrs) selector
                (Some "asap"%string) (fresh d state) events)
  = if is_loading state
    then if existsb is_domContentLoaded events then 1 else 0
    else 1.
Proof.
  intros Ha Hasap Hc Hstay. unfold lifetime, removeAttr.
  rewrite Ha. simpl negb. cbv iota. unfold schedule, applying_or_default.
  rewrite Hasap. simpl ready.
  destruct (is_loading state) eqn:Ld.
  - simpl ready. rewrite Hc, Hstay, andb_false_r.
    rewrite (asap_deferred_runs_at_domContentLoaded querySelectorAll
               (attrs_of attrs) (selector_of attrs selector)
               (parseFlags "asap") events
               (addDOMContentLoaded Rmattr (fresh d state)));
      reflexivity.
  - rewrite Hc, Hstay, andb_false_r.
    destruct (rmattr_frame querySelectorAll (attrs_of attrs)
                (selector_of attrs selector) (fresh d state))
      as [_ [D [L [O N]]]].
    destruct (dispatch_all_settled querySelectorAll (attrs_of attrs)
                (selector_of attrs selector) (parseFlags "asap") events
                (rmattr querySelectorAll (attrs_of attrs)
                   (selector_of attrs selector) (fresh d state)))
      as [_ [R _]].
    + repeat split; assumption.
    + rewrite R, N. reflexivity.
Qed.

Lemma asap_runs_once_witness :
  let d := [[("example"%string, "true"%string)]] in
  rmattrRuns (lifetime Examples.querySelectorAll RemoveAttr.parseFlags
                (Some "example"%string) None (Some "asap"%string)
                (fresh d Loading)
                [Mutation d false; DOMContentLoaded; Load; DOMContentLoaded])
  = 1.
Proof.
  intros d.
  apply (asap_runs_once Examples.querySelectorAll RemoveAttr.parseFlags
           "example" None d Loading
           [Mutation d false; DOMContentLoaded; Load; DOMContentLoaded]);
    reflexivity.
Defined.

End RemoveAttrMore.

(* ================================================================== *)
(** * prevent-requestAnimationFrame: every call, and the two readings of
      a search *)
(* ================================================================== *)

Section PreventRequestAnimationFrameMore.

Import PreventRequestAnimationFrame.

(** X12.  Whatever the search, a wrapped call ends in one call of the
    native function: either with the callback and the arguments it was
    given and without [hit(source)], or with [noopFunc], no argument at all
    and one [hit(source)]; without a search no call is defused. *)
Theorem rafWrapper_forwards_or_defuses
    (RegExp : Type) (toRegExp : option string -> RegExp)
    (test : RegExp -> string -> bool) (Arg : Type)
    (search : option string) (cb : callback) (args : list Arg) :
  let wrapped := rafWrapper RegExp toRegExp test Arg search cb args in
  (fst wrapped = mkNativeCall Arg cb args /\ ~ In Hit (snd wrapped))
  \/ (fst wrapped = mkNativeCall Arg noopFunc []
      /\ snd wrapped = [Hit]
      /\ search <> None).
Proof.
  unfold rafWrapper, shouldLog. destruct search as [s|]; simpl.
  - match goal with
    | |- context [if ?decision then _ else _] => destruct decision
    end; simpl.
    + right. split; [reflexivity | split; [reflexivity | discriminate]].
    + left. split; [reflexivity | intros []].
  - left. split; [reflexivity|]. intros [H|[]]. discriminate H.
Qed.

(** X13.  For a search that does not itself start with [!], putting a [!]
    in front turns every decision round: a call is defused under the one
    exactly when it is forwarded under the other. *)
Theorem bang_flips_every_decision
    (RegExp : Type) (toRegExp : option string -> RegExp)
    (test : RegExp -> string -> bool) (Arg : Type)
    (search : string) (cb : callback) (args : list Arg) :
  prefix "!" search = false ->
  let plain := rafWrapper RegExp toRegExp test Arg (Some search) cb args in
  let inverted :=
    rafWrapper RegExp toRegExp test Arg (Some ("!" ++ search)%string) cb args in
  (plain = (mkNativeCall Arg noopFunc [], [Hit])
   /\ inverted = (mkNativeCall Arg cb args, []))
  \/ (plain = (mkNativeCall Arg cb args, [])
      /\ inverted = (mkNativeCall Arg noopFunc [], [Hit])).
Proof.
  intros P.
  unfold rafWrapper, matchRegexp, rawMatch, doNotMatch, shouldLog,
    startsWith, INVERT_MARKER.
  rewrite P.
  assert (Q : prefix "!" ("!" ++ search) = true)
    by (apply prefix_app; exists search; reflexivity).
  rewrite Q. simpl.
  destruct (test (toRegExp (Some search)) (toString cb)); simpl;
    [left | right]; split; reflexivity.
Qed.

Lemma bang_flips_every_decision_witness :
  let cb := PageCallback "function changeFirst() { window.check = 1; }" in
  rafWrapper string Examples.literal_opt Examples.contains nat
    (Some "check"%string) cb [7] = (mkNativeCall nat noopFunc [], [Hit])
  /\ rafWrapper string Examples.literal_opt Examples.contains nat
       (Some "!check"%string) cb [7] = (mkNativeCall nat cb [7], []).
Proof.
  intros cb.
  destruct (bang_flips_every_decision string Examples.literal_opt
              Examples.contains nat "check" cb [7] eq_refl) as [H|[H _]].
  - exact H.
  - exfalso. revert H. vm_compute. discriminate.
Defined.

End PreventRequestAnimationFrameMore.

(* ================================================================== *)
(** * The helper [hit]: prefix, message and console *)
(* ================================================================== *)

Section HitFacts.

Import Hit.

Lemma sliceFrom_app (before rest : string) :
  sliceFrom (String.length before) (before ++ rest) = rest.
Proof.
  induction before as [|c before IH]; simpl; [now destruct rest | exact IH].
Qed.

(** Where [indexOf] finds the needle: at its first occurrence. *)
Lemma indexOf_first (s needle : string) :
  (0 <= Js.indexOf s needle)%Z ->
  exists before after,
    s = (before ++ needle ++ after)%string
    /\ Js.indexOf s needle = Z.of_nat (String.length before)
    /\ (forall before' after',
          s = (before' ++ needle ++ after')%string ->
          String.length before <= String.length before').
Proof.
  induction s as [|c s IH]; rewrite indexOf_unfold.
  - destruct (prefix needle EmptyString) eqn:P; [|lia]. intros _.
    apply prefix_app in P. destruct P as [rest P].
    exists EmptyString, rest. repeat split; auto. intros; simpl; lia.
  - destruct (prefix needle (String c s)) eqn:P.
    + intros _. apply prefix_app in P. destruct P as [rest P].
      exists EmptyString, rest. repeat split; auto. intros; simpl; lia.
    + cbv zeta. destruct (Js.indexOf s needle <? 0)%Z eqn:E; [lia|].
      apply Z.ltb_ge in E. intros _.
      destruct (IH E) as [before [after [Hs [Hi Hmin]]]].
      exists (String c before), after. repeat split.
      * simpl. now rewrite <- Hs.
      * rewrite Hi. simpl String.length. lia.
      * intros before' after' H'. destruct before' as [|c' before'].
        -- simpl in H'.
           assert (prefix needle (String c s) = true)
             by (apply prefix_app; exists after'; exact H').
           congruence.
        -- simpl in H'. injection H' as _ Hs'. simpl.
           apply le_n_S. apply (Hmin before' after'). exact Hs'.
Qed.

Lemma slice_at_marker (text marker : string) :
  occurs marker text ->
  exists before after,
    text = (before ++ marker ++ after)%string
    /\ (forall before' after',
          text = (before' ++ marker ++ after')%string ->
          String.length before <= String.length before')
    /\ slice (Some (Js.indexOf text marker)) text = (marker ++ after)%string.
Proof.
  intros Occ. apply indexOf_found in Occ.
  rewrite Z.gtb_ltb, Z.ltb_lt in Occ.
  destruct (indexOf_first text marker) as [before [after [Ht [Hi Hmin]]]];
    [lia|].
  exists before, after. repeat split; auto.
  unfold slice. rewrite Hi, Nat2Z.id.
  rewrite Ht at 1. apply sliceFrom_app.
Qed.

Lemma indexOf_absent (s needle : string) :
  ~ occurs needle s -> (Js.indexOf s needle >? -1)%Z = false.
Proof.
  intros N. destruct (Js.indexOf s needle >? -1)%Z eqn:E; [|reflexivity].
  apply indexOf_found in E. contradiction.
Qed.

(** X14.  With a domain name, the prefix of a report is the domain name
    followed by the rule text from its first [#%#//] on; when the rule text
    has no [#%#//], from its first [##+js] on; and when it has neither, by
    the whole rule text. *)
Theorem hit_prefix_is_domain_and_rule_part
    (hasDebug : bool) (text domain : string) :
  domain <> EmptyString ->
  let s := mkSource true (Some text) (Some domain) in
  (occurs AG_SCRIPTLET_MARKER text ->
   exists before after,
     text = (before ++ AG_SCRIPTLET_MARKER ++ after)%string
     /\ (forall before' after',
           text = (before' ++ AG_SCRIPTLET_MARKER ++ after')%string ->
           String.length before <= String.length before')
     /\ fst (hit hasDebug s None)
        = framed (domain ++ AG_SCRIPTLET_MARKER ++ after))
  /\ (~ occurs AG_SCRIPTLET_MARKER text ->
      occurs UBO_SCRIPTLET_MARKER text ->
      exists before after,
        text = (before ++ UBO_SCRIPTLET_MARKER ++ after)%string
        /\ (forall before' after',
              text = (before' ++ UBO_SCRIPTLET_MARKER ++ after')%string ->
              String.length before <= String.length before')
        /\ fst (hit hasDebug s None)
           = framed (domain ++ UBO_SCRIPTLET_MARKER ++ after))
  /\ (~ occurs AG_SCRIPTLET_MARKER text ->
      ~ occurs UBO_SCRIPTLET_MARKER text ->
      fst (hit hasDebug s None) = framed (domain ++ text)).
Proof.
  intros NE s.
  assert (T : Js.truthy_string domain = true).
  { unfold Js.truthy_string. destruct (String.eqb domain EmptyString) eqn:E;
      [apply String.eqb_eq in E; contradiction | reflexivity]. }
  unfold hit, logged, prefixOf, s. simpl. rewrite T.
  unfold ruleStartIndex. repeat split.
  - intros Occ.
    destruct (slice_at_marker text AG_SCRIPTLET_MARKER Occ)
      as [before [after [Ht [Hmin Hs]]]].
    exists before, after. repeat split; auto.
    apply indexOf_found in Occ. rewrite Occ, Hs. reflexivity.
  - intros NA Occ.
    destruct (slice_at_marker text UBO_SCRIPTLET_MARKER Occ)
      as [before [after [Ht [Hmin Hs]]]].
    exists before, after. repeat split; auto.
    apply indexOf_found in Occ.
    rewrite (indexOf_absent _ _ NA), Occ, Hs. reflexivity.
  - intros NA NU.
    rewrite (indexOf_absent _ _ NA), (indexOf_absent _ _ NU). reflexivity.
Qed.

Lemma hit_prefix_is_domain_and_rule_part_witness :
  exists before after,
    "example.org,example.com#%#//scriptlet('x')"%string
    = (before ++ AG_SCRIPTLET_MARKER ++ after)%string
    /\ fst (hit false
              (mkSource true
                 (Some "example.org,example.com#%#//scriptlet('x')"%string)
                 (Some "example.org"%string)) None)
       = framed ("example.org" ++ AG_SCRIPTLET_MARKER ++ after).
Proof.
  destruct (proj1 (hit_prefix_is_domain_and_rule_part false
                     "example.org,example.com#%#//scriptlet('x')"
                     "example.org" ltac:(discriminate)))
    as [before [after [Ht [_ Hh]]]].
  - exists "example.org,example.com"%string, "scriptlet('x')"%string.
    reflexivity.
  - exists before, after. split; assumption.
Defined.

(** X15.  The line written for a message.  A message in which [log: ]
    occurs, wherever it stands, is written without its first five
    characters and without the prefix; any other message is written after
    the prefix and [ message:], on a line of its own.  The three trace calls
    follow. *)
Theorem hit_message_line
    (hasDebug : bool) (s : source) (prefix message : string) :
  verbose s = true ->
  prefixOf s = Js.Returns prefix ->
  message <> EmptyString ->
  (occurs LOG_MARKER message ->
   fst (hit hasDebug s (Some message))
   = LogLine (sliceFrom 5 message) :: framed prefix)
  /\ (~ occurs LOG_MARKER message ->
      fst (hit hasDebug s (Some message))
      = LogLine (prefix ++ " message:" ++ newline ++ message)%string
        :: framed prefix).
Proof.
  intros V P NE.
  assert (T : Js.truthy_string message = true).
  { unfold Js.truthy_string. destruct (String.eqb message EmptyString) eqn:E;
      [apply String.eqb_eq in E; contradiction | reflexivity]. }
  unfold hit, logged, messageLine. rewrite V, P, T. simpl.
  pose proof (indexOf_lower_bound message LOG_MARKER) as LB.
  split; intros Occ.
  - apply indexOf_found in Occ. rewrite Z.gtb_ltb, Z.ltb_lt in Occ.
    destruct (Js.indexOf message LOG_MARKER =? -1)%Z eqn:E;
      [apply Z.eqb_eq in E; lia | reflexivity].
  - apply indexOf_absent in Occ. rewrite Z.gtb_ltb, Z.ltb_ge in Occ.
    destruct (Js.indexOf message LOG_MARKER =? -1)%Z eqn:E;
      [reflexivity | apply Z.eqb_neq in E; lia].
Qed.

Lemma hit_message_line_witness :
  fst (hit false (mkSource true (Some "rule"%string) None)
         (Some "see log: below"%string))
  = LogLine "og: below" :: framed "rule".
Proof.
  apply (proj1 (hit_message_line false (mkSource true (Some "rule"%string) None)
                  "rule" "see log: below" eq_refl eq_refl
                  ltac:(discriminate))).
  exists "see "%string, "below"%string. reflexivity.
Defined.

(** X16.  In logging mode (no search) a wrapped [requestAnimationFrame]
    call hands [hit] a message that starts with [log: ], so a verbose
    source gets the text [requestAnimationFrame("...")] with the text of the
    callback between the quotes, then the three trace calls, and the call
    itself goes to the native function as it was made. *)
Theorem rafWrapper_log_reaches_console
    (RegExp : Type) (toRegExp : option string -> RegExp)
    (test : RegExp -> string -> bool) (Arg : Type)
    (cb : PreventRequestAnimationFrame.callback) (args : list Arg)
    (hasDebug : bool) (s : source) (prefix : string) :
  verbose s = true ->
  prefixOf s = Js.Returns prefix ->
  exists message,
    PreventRequestAnimationFrame.rafWrapper RegExp toRegExp test Arg None cb args
    = (PreventRequestAnimationFrame.mkNativeCall Arg cb args,
       [PreventRequestAnimationFrame.HitLog message])
    /\ fst (hit hasDebug s (Some message))
       = LogLine ("requestAnimationFrame(" ++ Js.quote
                  ++ PreventRequestAnimationFrame.toString cb
                  ++ Js.quote ++ ")")%string
         :: framed prefix.
Proof.
  intros V P. eexists. split; [reflexivity|].
  unfold hit, logged, messageLine. rewrite V, P. reflexivity.
Qed.

Lemma rafWrapper_log_reaches_console_witness :
  exists message,
    PreventRequestAnimationFrame.rafWrapper string Examples.literal_opt
      Examples.contains nat None
      (PreventRequestAnimationFrame.PageCallback "function f() {}") [7]
    = (PreventRequestAnimationFrame.mkNativeCall nat
         (PreventRequestAnimationFrame.PageCallback "function f() {}") [7],
       [PreventRequestAnimationFrame.HitLog message])
    /\ fst (hit false (mkSource true (Some "rule"%string) None) (Some message))
       = LogLine ("requestAnimationFrame(" ++ Js.quote ++ "function f() {}"
                  ++ Js.quote ++ ")")%string
         :: framed "rule".
Proof.
  apply (rafWrapper_log_reaches_console string Examples.literal_opt
           Examples.contains nat
           (PreventRequestAnimationFrame.PageCallback "function f() {}") [7]
           false (mkSource true (Some "rule"%string) None) "rule");
    reflexivity.
Defined.

End HitFacts.

(* ================================================================== *)
(** * Argument lists: selectors and attributes are read back *)
(* ================================================================== *)

Section ArgumentLists.

Lemma split_lacks (sep : ascii) (s : string) :
  lacks sep s = true -> Js.split sep s = [s].
Proof.
  induction s as [|c s IH]; intros H; [reflexivity|].
  simpl in *. apply andb_true_iff in H. destruct H as [Hc Hs].
  apply negb_true_iff in Hc. rewrite Hc. now rewrite (IH Hs).
Qed.

Lemma split_first (sep : ascii) (p q : string) :
  lacks sep p = true ->
  Js.split sep (p ++ String sep q) = p :: Js.split sep q.
Proof.
  induction p as [|c p IH]; intros H.
  - simpl. now rewrite Ascii.eqb_refl.
  - simpl in H. apply andb_true_iff in H. destruct H as [Hc Hp].
    apply negb_true_iff in Hc.
    change (String c p ++ String sep q)%string
      with (String c (p ++ String sep q)).
    cbn [Js.split]. rewrite Hc. now rewrite (IH Hp).
Qed.

Lemma targets_join_from (lead : string) (selectors : list string) :
  lead = EmptyString \/ lead = " "%string ->
  selectors <> [] ->
  Forall (fun s => lacks "," s = true /\ Js.trim s = s) selectors ->
  map Js.trim (Js.split "," (lead ++ Js.join ", " selectors)) = selectors.
Proof.
  intros Hlead NE F. revert lead Hlead.
  induction selectors as [|s selectors IH]; intros lead Hlead; [congruence|].
  inversion F as [|? ? [Hl Ht] F']; subst.
  assert (L : lacks "," (lead ++ s) = true)
    by (destruct Hlead as [->| ->]; simpl; exact Hl).
  assert (T : Js.trim (lead ++ s) = s)
    by (destruct Hlead as [->| ->]; simpl; exact Ht).
  destruct selectors as [|s' selectors].
  - simpl Js.join. rewrite split_lacks by exact L. simpl. now rewrite T.
  - rewrite join_cons by discriminate.
    change (", " ++ Js.join ", " (s' :: selectors))%string
      with (String "," (" " ++ Js.join ", " (s' :: selectors))).
    rewrite <- append_assoc.
    rewrite split_first by exact L.
    simpl map. rewrite T. f_equal.
    exact (IH ltac:(discriminate) F' " "%string (or_intror eq_refl)).
Qed.

(** X17.  Selectors written one after the other with a comma and a space
    between them are read back as they are: for selectors without a comma
    and without white space (no-break space included) at either end, the
    targets of the joined string are the selectors, in their order. *)
Theorem targets_join (selectors : list string) :
  selectors <> [] ->
  Forall (fun s => lacks "," s = true /\ Js.trim s = s) selectors ->
  TrustedClickElem.targets (Js.join ", " selectors) = selectors.
Proof.
  intros NE F. unfold TrustedClickElem.targets, TrustedClickElem.SELECTORS_DELIMITER.
  apply (targets_join_from EmptyString selectors); auto.
Qed.

Lemma targets_join_witness :
  TrustedClickElem.targets "button[name='agree'], input[type=submit]"
  = ["button[name='agree']"; "input[type=submit]"]%string.
Proof.
  apply (targets_join ["button[name='agree']"; "input[type=submit]"]%string).
  - discriminate.
  - repeat constructor.
Defined.

Lemma trim_pieces_fixed (first : bool) (attrs : list string) :
  Forall (fun a => Js.trimStart a = a /\ Js.trimEnd a = a) attrs ->
  RemoveAttr.trim_pieces first attrs = attrs.
Proof.
  intros F. revert first. induction F as [|a attrs [Hs He] F IH]; intros first.
  - reflexivity.
  - destruct attrs as [|a' attrs].
    + simpl. destruct first; [reflexivity | now rewrite Hs].
    + change (RemoveAttr.trim_pieces first (a :: a' :: attrs))
        with ((if first then Js.trimEnd a else Js.trim a)
              :: RemoveAttr.trim_pieces false (a' :: attrs)).
      rewrite IH. unfold Js.trim. rewrite Hs, He. now destruct first.
Qed.

Lemma split_join (sep : ascii) (pieces : list string) :
  pieces <> [] ->
  Forall (fun p => lacks sep p = true) pieces ->
  Js.split sep (Js.join (String sep EmptyString) pieces) = pieces.
Proof.
  intros NE F. induction pieces as [|p pieces IH]; [congruence|].
  inversion F as [|? ? Hp F']; subst.
  destruct pieces as [|p' pieces].
  - simpl. now apply split_lacks.
  - rewrite join_cons by discriminate.
    change (String sep EmptyString ++ Js.join (String sep EmptyString)
                                        (p' :: pieces))%string
      with (String sep (Js.join (String sep EmptyString) (p' :: pieces))).
    rewrite split_first by exact Hp.
    rewrite IH; [reflexivity | discriminate | assumption].
Qed.

(** X18.  Attributes joined by [|] are read back as they are, and without
    a selector argument the nodes are selected by the attribute selectors of
    the list, joined by commas: for attribute names without [|] and without
    white space (no-break space included) at either end, [attrs.split] gives
    the names and the default selector is [[a],[b],...]. *)
Theorem attrs_join (attrs : list string) :
  attrs <> [] ->
  Forall (fun a => lacks "|" a = true
                   /\ Js.trimStart a = a /\ Js.trimEnd a = a) attrs ->
  RemoveAttr.attrs_of (Js.join "|" attrs) = attrs
  /\ RemoveAttr.selector_of (Js.join "|" attrs) None
     = ("[" ++ Js.join "],[" attrs ++ "]")%string.
Proof.
  intros NE F.
  assert (A : RemoveAttr.attrs_of (Js.join "|" attrs) = attrs).
  { unfold RemoveAttr.attrs_of, RemoveAttr.split_attrs.
    rewrite split_join; [|exact NE|].
    - apply trim_pieces_fixed. eapply Forall_impl; [|exact F].
      intros a [_ H]. exact H.
    - eapply Forall_impl; [|exact F]. intros a [H _]. exact H. }
  split; [exact A|]. unfold RemoveAttr.selector_of. now rewrite A.
Qed.

Lemma attrs_join_witness :
  RemoveAttr.attrs_of "example|test" = ["example"; "test"]%string
  /\ RemoveAttr.selector_of "example|test" None = "[example],[test]"%string.
Proof.
  apply (attrs_join ["example"; "test"]%string).
  - discriminate.
  - repeat constructor.
Defined.

End ArgumentLists.

(* ================================================================== *)
(** * The helper [hit]: a source without rule text *)
(* ================================================================== *)

Section HitWithoutRuleText.

(** X19.  A source with a domain name and no rule text gets nothing on the
    console, not even the message: reading the rule text throws inside the
    [try] block, the [catch] block swallows it, and [window.__debug] is
    still called when the source is verbose. *)
Theorem hit_without_rule_text_is_mute
    (hasDebug isVerbose : bool) (domain : string) (message : option string) :
  domain <> EmptyString ->
  Hit.hit hasDebug (Hit.mkSource isVerbose None (Some domain)) message
  = ([], isVerbose && hasDebug).
Proof.
  intros NE. unfold Hit.hit, Hit.logged, Hit.prefixOf. simpl.
  unfold Js.truthy_string.
  destruct (String.eqb domain EmptyString) eqn:E;
    [apply String.eqb_eq in E; contradiction|].
  destruct isVerbose; reflexivity.
Qed.

Lemma hit_without_rule_text_is_mute_witness :
  Hit.hit true (Hit.mkSource true None (Some "example.org"%string))
    (Some "log: lost"%string)
  = ([], true).
Proof.
  apply (hit_without_rule_text_is_mute true true "example.org"
           (Some "log: lost"%string)).
  discriminate.
Defined.

End HitWithoutRuleText.
